(** * ShellOS package repository: the upload and catalog coordinator

    A shallow embedding of [src/app.js] (the React component [App]) and the
    properties of its publish path.

    The component is modelled as a state machine.  Its React state is the
    record [state]; every callback the component registers (the mount
    effect, the auth listener, the snapshot listener, the form handlers and
    the three callbacks of an upload task) is a transition taken when the
    matching [event] is delivered.  An [async] function is cut at each
    [await]: the values its closure captured when it was created live in a
    [task], and the settlement of the awaited promise is an event of its
    own.  Calls into Firebase, the console and the DOM are recorded in a
    log, interleaved with the events that were delivered.

    Strings are [string]: a character is a UTF-16 code unit below 256
    (Latin-1), which is where the file's string operations are exact.
    Numbers are IEEE 754 doubles, as the standard library specifies them
    ([spec_float] with a significand of 53 bits).

    Left out: the JSX that renders the state (only the [disabled]
    attributes of the form matter here, see [controlsDisabled]), the
    unmounting of the component, and the bytes of an upload. *)

From Stdlib Require Import String Ascii List NArith ZArith Lia Bool DecimalString.
From Stdlib Require Import Floats.SpecFloat.
From stdpp Require Import base option list strings gmap.
Open Scope string_scope.
Open Scope list_scope.

(** ** JavaScript values used by the component *)

Module JS.

(** Truthiness of a string: only the empty string is falsy. *)
Definition truthy (s : string) : bool :=
  match s with
  | EmptyString => false
  | String _ _ => true
  end.

(** Truthiness of a value that is an object or [null]. *)
Definition present {A} (o : option A) : bool :=
  match o with
  | Some _ => true
  | None => false
  end.

(** Truthiness of a value that is a string or [null]. *)
Definition truthy_opt (o : option string) : bool :=
  match o with
  | Some s => truthy s
  | None => false
  end.

Definition between (lo hi : N) (c : ascii) : bool :=
  ((lo <=? N_of_ascii c) && (N_of_ascii c <=? hi))%N.

(** [String.prototype.toLowerCase] on one code unit below 256: the basic
    Latin capitals A-Z and the Latin-1 capitals U+00C0-U+00DE (the
    multiplication sign U+00D7 apart) move up by 32. *)
Definition lower (c : ascii) : ascii :=
  if between 65 90 c
     || (between 192 222 c && negb (N_of_ascii c =? 215)%N)
  then ascii_of_N (N_of_ascii c + 32)
  else c.

(** [s.toLowerCase()], unit by unit: exact on Latin-1 text, the strings of
    this model.  (Beyond Latin-1 the code's lowercasing can also lengthen a
    string: U+0130 becomes two code units.) *)
Fixpoint toLowerCase (s : string) : string :=
  match s with
  | EmptyString => EmptyString
  | String c s' => String (lower c) (toLowerCase s')
  end.

(** The character class [[a-z0-9_.-]]. *)
Definition conforming (c : ascii) : bool :=
  between 97 122 c || between 48 57 c
  || Ascii.eqb c "_" || Ascii.eqb c "." || Ascii.eqb c "-".

(** [s.replace(/[^a-z0-9_.-]/g, '')]. *)
Fixpoint stripNonConforming (s : string) : string :=
  match s with
  | EmptyString => EmptyString
  | String c s' =>
      if conforming c then String c (stripNonConforming s')
      else stripNonConforming s'
  end.

(** [s.split('.')]: the segments between the dots, never an empty array. *)
Fixpoint split_dot (s : string) : list string :=
  match s with
  | EmptyString => [EmptyString]
  | String c s' =>
      if Ascii.eqb c "."
      then EmptyString :: split_dot s'
      else match split_dot s' with
           | seg :: segs => String c seg :: segs
           | [] => [String c EmptyString]
           end
  end.

(** [Array.prototype.pop]: the last element, [undefined] on an empty
    array. *)
Fixpoint pop {A} (l : list A) : option A :=
  match l with
  | [] => None
  | [x] => Some x
  | _ :: l' => pop l'
  end.

(** A value placed in a template literal: [undefined] prints as the word. *)
Definition interpolate (o : option string) : string :=
  match o with
  | Some s => s
  | None => "undefined"
  end.

(** A JavaScript number is an IEEE 754 double: a [spec_float] with a
    significand of 53 bits and exponents up to 1024, every operation
    rounding to the nearest double, ties to even. *)
Definition number : Type := spec_float.

Definition prec : Z := 53.
Definition emax : Z := 1024.

Definition NaN : number := S754_nan.
Definition Infinity : number := S754_infinity false.

(** The double that holds a count or an integer literal: the integer
    itself below 2^53, the nearest double above. *)
Definition ofN (n : N) : number :=
  binary_normalize prec emax (Z.of_N n) 0 false.

Definition zero : number := ofN 0.

(** [(a / b) * 100] for two byte counts: a division and a multiplication
    of doubles, each rounded. *)
Definition percent (a b : N) : number :=
  SFmul prec emax (SFdiv prec emax (ofN a) (ofN b)) (ofN 100).

(** The integer nearest to [m * 2^e], the larger one of two that are
    equally near. *)
Definition nearest (m : positive) (e : Z) : N :=
  match e with
  | Z0 => Npos m
  | Zpos p => (Npos m * 2 ^ Npos p)%N
  | Zneg p => ((Npos m + 2 ^ (Npos p - 1)) / 2 ^ Npos p)%N
  end.

(** [x.toFixed(0)]: the sign, then the decimal digits of the integer
    nearest to the magnitude of [x].  That is what [toFixed] prints of a
    magnitude below 10^21, which [percent] stays under for byte counts
    below 2^53; from 10^21 on the code prints an exponent form. *)
Definition toFixed0 (x : number) : string :=
  match x with
  | S754_nan => "NaN"
  | S754_infinity s => if s then "-Infinity" else "Infinity"
  | S754_zero _ => "0"
  | S754_finite s m e =>
      (if s then "-" else "")
        +:+ NilEmpty.string_of_uint (N.to_uint (nearest m e))
  end.

End JS.

(** ** The derived file name (lines 116-120 of [handleUpload]) *)

Definition sanitizedPackageName (packageName : string) : string :=
  JS.stripNonConforming (JS.toLowerCase packageName).

Definition fileExtension (fileName : string) : string :=
  JS.interpolate (JS.pop (JS.split_dot fileName)).

Definition fileName_of (packageName packageVersion file_name : string) : string :=
  sanitizedPackageName packageName +:+ "_v" +:+ packageVersion +:+ "."
    +:+ fileExtension file_name.

(** ** React state of [App] (lines 15-29) *)

Inductive Firestore : Set := firestoreDb.
Inductive Auth : Set := firebaseAuth.
Inductive Storage : Set := firebaseStorage.

(** A [File] picked in the form: what the component reads of it. *)
Record File : Set := { file_name : string; file_size : N }.

Inductive timestamp : Set :=
| ServerTimestamp
| At (seconds : N).

Module PackageRecord.
  (** The object handed to [addDoc] (lines 144-153). *)
Record t : Set := mk {
    name : string;
    displayName : string;
    description : string;
    version : string;
    fileName : string;
    fileUrl : string;
    uploaderId : string;
    uploadTime : timestamp }.
End PackageRecord.

(** An entry of [packages]: [{ id: doc.id, ...doc.data() }]. *)
Record Doc : Set := { doc_id : string; doc_data : PackageRecord.t }.

Record state : Type := {
  db : option Firestore;
  auth : option Auth;
  storage : option Storage;
  userId : option string;
  isAuthReady : bool;
  packages : list Doc;
  uploading : bool;
  uploadProgress : JS.number;
  uploadMessage : string;
  packageName : string;
  packageDescription : string;
  packageVersion : string;
  packageFile : option File }.

Definition initial_state : state :=
  {| db := None; auth := None; storage := None; userId := None;
     isAuthReady := false; packages := []; uploading := false;
     uploadProgress := JS.zero; uploadMessage := "";
     packageName := ""; packageDescription := ""; packageVersion := "";
     packageFile := None |}.

Definition setDb v (s : state) : state :=
  {| db := v; auth := auth s; storage := storage s; userId := userId s;
     isAuthReady := isAuthReady s; packages := packages s;
     uploading := uploading s; uploadProgress := uploadProgress s;
     uploadMessage := uploadMessage s; packageName := packageName s;
     packageDescription := packageDescription s;
     packageVersion := packageVersion s; packageFile := packageFile s |}.

Definition setAuth v (s : state) : state :=
  {| db := db s; auth := v; storage := storage s; userId := userId s;
     isAuthReady := isAuthReady s; packages := packages s;
     uploading := uploading s; uploadProgress := uploadProgress s;
     uploadMessage := uploadMessage s; packageName := packageName s;
     packageDescription := packageDescription s;
     packageVersion := packageVersion s; packageFile := packageFile s |}.

Definition setStorage v (s : state) : state :=
  {| db := db s; auth := auth s; storage := v; userId := userId s;
     isAuthReady := isAuthReady s; packages := packages s;
     uploading := uploading s; uploadProgress := uploadProgress s;
     uploadMessage := uploadMessage s; packageName := packageName s;
     packageDescription := packageDescription s;
     packageVersion := packageVersion s; packageFile := packageFile s |}.

Definition setUserId v (s : state) : state :=
  {| db := db s; auth := auth s; storage := storage s; userId := v;
     isAuthReady := isAuthReady s; packages := packages s;
     uploading := uploading s; uploadProgress := uploadProgress s;
     uploadMessage := uploadMessage s; packageName := packageName s;
     packageDescription := packageDescription s;
     packageVersion := packageVersion s; packageFile := packageFile s |}.

Definition setIsAuthReady v (s : state) : state :=
  {| db := db s; auth := auth s; storage := storage s; userId := userId s;
     isAuthReady := v; packages := packages s;
     uploading := uploading s; uploadProgress := uploadProgress s;
     uploadMessage := uploadMessage s; packageName := packageName s;
     packageDescription := packageDescription s;
     packageVersion := packageVersion s; packageFile := packageFile s |}.

Definition setPackages v (s : state) : state :=
  {| db := db s; auth := auth s; storage := storage s; userId := userId s;
     isAuthReady := isAuthReady s; packages := v;
     uploading := uploading s; uploadProgress := uploadProgress s;
     uploadMessage := uploadMessage s; packageName := packageName s;
     packageDescription := packageDescription s;
     packageVersion := packageVersion s; packageFile := packageFile s |}.

Definition setUploading v (s : state) : state :=
  {| db := db s; auth := auth s; storage := storage s; userId := userId s;
     isAuthReady := isAuthReady s; packages := packages s;
     uploading := v; uploadProgress := uploadProgress s;
     uploadMessage := uploadMessage s; packageName := packageName s;
     packageDescription := packageDescription s;
     packageVersion := packageVersion s; packageFile := packageFile s |}.

Definition setUploadProgress v (s : state) : state :=
  {| db := db s; auth := auth s; storage := storage s; userId := userId s;
     isAuthReady := isAuthReady s; packages := packages s;
     uploading := uploading s; uploadProgress := v;
     uploadMessage := uploadMessage s; packageName := packageName s;
     packageDescription := packageDescription s;
     packageVersion := packageVersion s; packageFile := packageFile s |}.

Definition setUploadMessage v (s : state) : state :=
  {| db := db s; auth := auth s; storage := storage s; userId := userId s;
     isAuthReady := isAuthReady s; packages := packages s;
     uploading := uploading s; uploadProgress := uploadProgress s;
     uploadMessage := v; packageName := packageName s;
     packageDescription := packageDescription s;
     packageVersion := packageVersion s; packageFile := packageFile s |}.

Definition setPackageName v (s : state) : state :=
  {| db := db s; auth := auth s; storage := storage s; userId := userId s;
     isAuthReady := isAuthReady s; packages := packages s;
     uploading := uploading s; uploadProgress := uploadProgress s;
     uploadMessage := uploadMessage s; packageName := v;
     packageDescription := packageDescription s;
     packageVersion := packageVersion s; packageFile := packageFile s |}.

Definition setPackageDescription v (s : state) : state :=
  {| db := db s; auth := auth s; storage := storage s; userId := userId s;
     isAuthReady := isAuthReady s; packages := packages s;
     uploading := uploading s; uploadProgress := uploadProgress s;
     uploadMessage := uploadMessage s; packageName := packageName s;
     packageDescription := v;
     packageVersion := packageVersion s; packageFile := packageFile s |}.

Definition setPackageVersion v (s : state) : state :=
  {| db := db s; auth := auth s; storage := storage s; userId := userId s;
     isAuthReady := isAuthReady s; packages := packages s;
     uploading := uploading s; uploadProgress := uploadProgress s;
     uploadMessage := uploadMessage s; packageName := packageName s;
     packageDescription := packageDescription s;
     packageVersion := v; packageFile := packageFile s |}.

Definition setPackageFile v (s : state) : state :=
  {| db := db s; auth := auth s; storage := storage s; userId := userId s;
     isAuthReady := isAuthReady s; packages := packages s;
     uploading := uploading s; uploadProgress := uploadProgress s;
     uploadMessage := uploadMessage s; packageName := packageName s;
     packageDescription := packageDescription s;
     packageVersion := packageVersion s; packageFile := v |}.

(** The four inputs of the form, as one value. *)
Definition form (s : state) : string * string * string * option File :=
  (packageName s, packageDescription s, packageVersion s, packageFile s).

(** ** Calls the component makes, and events delivered to it *)

Inductive call : Type :=
| InitializeApp
| GetFirestore
| GetAuth
| GetStorage
| OnAuthStateChanged
| SignInWithCustomToken (token : string)
| SignInAnonymously
| OnSnapshot (path : string)
| Unsubscribe
| UploadBytesResumable (path : string) (file : File)
| GetDownloadURL (path : string)
| AddDoc (path : string) (record : PackageRecord.t)
| ConsoleError (label message : string)
| ClearFileInput.

(** [Mount (Some (k, m))]: the [k]-th call of the mount effect (counting
    from 0, [getStorage] for 3 and beyond) threw an error with message
    [m].  [AuthStateChanged user u]: the auth listener is invoked with
    [user] ([None] for [null]); [u] is what [crypto.randomUUID()] returns
    if it is called.  The last five events belong to the upload task they
    name: its three callbacks, and the settlement of the two promises its
    completion callback awaits. *)
Inductive event : Type :=
| Mount (threw : option (nat * string))
| SignInRejected (message : string)
| AuthStateChanged (user : option string) (randomUUID : string)
| Snapshot (docs : list Doc)
| SnapshotError (message : string)
| ChangeName (value : string)
| ChangeDescription (value : string)
| ChangeVersion (value : string)
| FileChange (file : option File)
| Submit
| StateChanged (task : nat) (bytesTransferred totalBytes : N)
| UploadFailed (task : nat) (message : string)
| UploadCompleted (task : nat)
| DownloadURLSettled (task : nat) (result : string + string)
| AddDocSettled (task : nat) (rejected : option string).

Inductive entry : Type :=
| Delivered (ev : event)
| Called (c : call).

(** Where an upload's callbacks are: the upload is running, the completion
    callback waits for [getDownloadURL], or it waits for [addDoc]. *)
Inductive phase : Type :=
| Uploading
| ResolvingURL
| CommittingMetadata (record : PackageRecord.t).

(** One call of [handleUpload] that got past its guard: the values the
    three callbacks of [uploadTask.on] closed over, and the storage path of
    [storageRef]. *)
Record task : Type := {
  t_phase : phase;
  t_db : option Firestore;
  t_packageName : string;
  t_packageDescription : string;
  t_packageVersion : string;
  t_fileName : string;
  t_userId : string;
  t_ref : string }.

Definition in_phase (p : phase) (t : task) : task :=
  {| t_phase := p; t_db := t_db t; t_packageName := t_packageName t;
     t_packageDescription := t_packageDescription t;
     t_packageVersion := t_packageVersion t; t_fileName := t_fileName t;
     t_userId := t_userId t; t_ref := t_ref t |}.

(** The component and what surrounds it: the React state, which listeners
    are registered, the uploads in flight and the records whose [addDoc]
    resolved. *)
Record world : Type := {
  ui : state;
  mounted : bool;
  authListener : bool;
  signingIn : bool;
  subscribed : bool;
  tasks : gmap nat task;
  nextTask : nat;
  committed : list PackageRecord.t }.

Definition initial_world : world :=
  {| ui := initial_state; mounted := false; authListener := false;
     signingIn := false; subscribed := false; tasks := ∅; nextTask := 0;
     committed := [] |}.

Definition with_ui (s : state) (w : world) : world :=
  {| ui := s; mounted := mounted w; authListener := authListener w;
     signingIn := signingIn w; subscribed := subscribed w;
     tasks := tasks w; nextTask := nextTask w; committed := committed w |}.

Definition with_tasks (m : gmap nat task) (w : world) : world :=
  {| ui := ui w; mounted := mounted w; authListener := authListener w;
     signingIn := signingIn w; subscribed := subscribed w;
     tasks := m; nextTask := nextTask w; committed := committed w |}.

Definition with_subscribed (b : bool) (w : world) : world :=
  {| ui := ui w; mounted := mounted w; authListener := authListener w;
     signingIn := signingIn w; subscribed := b;
     tasks := tasks w; nextTask := nextTask w; committed := committed w |}.

Definition with_signingIn (b : bool) (w : world) : world :=
  {| ui := ui w; mounted := mounted w; authListener := authListener w;
     signingIn := b; subscribed := subscribed w;
     tasks := tasks w; nextTask := nextTask w; committed := committed w |}.

Definition with_committed (l : list PackageRecord.t) (w : world) : world :=
  {| ui := ui w; mounted := mounted w; authListener := authListener w;
     signingIn := signingIn w; subscribed := subscribed w;
     tasks := tasks w; nextTask := nextTask w; committed := l |}.

(** ** The component's callbacks *)

Section Coordinator.

(** The two globals of the hosting page that the component reads (lines
    10-12): [appId] is ['default-app-id'] and [initialAuthToken] is [null]
    where the page does not define them. *)
Variable appId : string.
Variable initialAuthToken : option string.

Definition packagesCollection : string :=
  "artifacts/" +:+ appId +:+ "/public/data/packages".

Definition storagePath (fileName : string) : string :=
  "artifacts/" +:+ appId +:+ "/packages/" +:+ fileName.

(** The calls of the mount effect up to [getStorage] (lines 34-37); any of
    them may throw. *)
Definition initCalls : list call :=
  [InitializeApp; GetFirestore; GetAuth; GetStorage].

(** [signInUser] up to its [await] (lines 46-50). *)
Definition signInCall : call :=
  match initialAuthToken with
  | Some token =>
      if JS.truthy token then SignInWithCustomToken token
      else SignInAnonymously
  | None => SignInAnonymously
  end.

(** The guard of [handleUpload] (line 107). *)
Definition missingInput (s : state) : bool :=
  negb (JS.present (packageFile s))
  || negb (JS.truthy (packageName s))
  || negb (JS.truthy (packageDescription s))
  || negb (JS.truthy (packageVersion s))
  || negb (JS.present (auth s))
  || negb (JS.truthy_opt (userId s)).

Definition fillAllFields : string :=
  "Please fill all fields and select a file.".

(** The three setters after the guard (lines 112-114). *)
Definition started (s : state) : state :=
  setUploadProgress JS.zero
    (setUploadMessage "Starting upload..." (setUploading true s)).

(** What the callbacks of [uploadTask.on] close over. *)
Definition submitted (s : state) (file : File) (uid : string) : task :=
  let fileName :=
    fileName_of (packageName s) (packageVersion s) (file_name file) in
  {| t_phase := Uploading;
     t_db := db s;
     t_packageName := packageName s;
     t_packageDescription := packageDescription s;
     t_packageVersion := packageVersion s;
     t_fileName := fileName;
     t_userId := uid;
     t_ref := storagePath fileName |}.

(** [handleUpload] up to the registration of the three callbacks (lines
    105-125): the new React state, the calls made, and the upload task
    when one was started.  [e.preventDefault()] only stops the browser
    from navigating and is left out.  With [storage] still [null],
    [ref] throws after the three setters have run. *)
Definition handleUpload (s : state) : state * list call * option task :=
  if missingInput s
  then (setUploadMessage fillAllFields s, [], None)
  else
    match packageFile s, userId s, storage s with
    | Some file, Some uid, Some _ =>
        let fileName :=
          fileName_of (packageName s) (packageVersion s) (file_name file) in
        (started s,
         [UploadBytesResumable (storagePath fileName) file],
         Some (submitted s file uid))
    | _, _, _ => (started s, [], None)
    end.

(** The object written by [addDoc] (lines 144-153), from the values the
    completion callback closed over. *)
Definition recordOf (t : task) (downloadURL : string) : PackageRecord.t :=
  {| PackageRecord.name := JS.toLowerCase (t_packageName t);
     PackageRecord.displayName := t_packageName t;
     PackageRecord.description := t_packageDescription t;
     PackageRecord.version := t_packageVersion t;
     PackageRecord.fileName := t_fileName t;
     PackageRecord.fileUrl := downloadURL;
     PackageRecord.uploaderId := t_userId t;
     PackageRecord.uploadTime := ServerTimestamp |}.

(** The [catch] and [finally] blocks of the completion callback (lines
    164-170). *)
Definition catchSave (message : string) (s : state) : state * list call :=
  (setUploadMessage ("Failed to save package info: " +:+ message) s,
   [ConsoleError "Error saving package info:" message]).

Definition finallyReset (s : state) : state :=
  setUploadProgress JS.zero (setUploading false s).

(** What [collection] reports when its first argument is [null]. *)
Definition collectionTypeError : string :=
  "Expected first argument to collection() to be a CollectionReference, a DocumentReference or FirebaseFirestore".

(** Lines 157-163. *)
Definition clearForm (s : state) : state :=
  setPackageFile None
    (setPackageVersion "" (setPackageDescription "" (setPackageName "" s))).

Definition task_in (w : world) (id : nat) : option task := tasks w !! id.

(** The callback an event is delivered to: [None] when no such callback
    is registered at that moment. *)
Definition handle (w : world) (ev : event) : option (world * list call) :=
  let s := ui w in
  match ev with
  | Mount threw =>
      if mounted w then None
      else
        match threw with
        | Some (k, message) =>
            Some ({| ui := setUploadMessage
                             ("Firebase init error: " +:+ message) s;
                     mounted := true; authListener := false;
                     signingIn := false; subscribed := subscribed w;
                     tasks := tasks w; nextTask := nextTask w;
                     committed := committed w |},
                  take (S k) initCalls
                    ++ [ConsoleError "Failed to initialize Firebase:" message])
        | None =>
            Some ({| ui := setStorage (Some firebaseStorage)
                             (setAuth (Some firebaseAuth)
                                (setDb (Some firestoreDb) s));
                     mounted := true; authListener := true;
                     signingIn := true; subscribed := subscribed w;
                     tasks := tasks w; nextTask := nextTask w;
                     committed := committed w |},
                  initCalls ++ [OnAuthStateChanged; signInCall])
        end
  | SignInRejected message =>
      if signingIn w
      then Some (with_signingIn false
                   (with_ui (setUploadMessage ("Auth error: " +:+ message) s) w),
                 [ConsoleError "Firebase authentication failed:" message])
      else None
  | AuthStateChanged user randomUUID =>
      if authListener w
      then
        let uid := match user with Some uid => uid | None => randomUUID end in
        Some (with_ui (setIsAuthReady true (setUserId (Some uid) s)) w, [])
      else None
  | Snapshot docs =>
      if subscribed w then Some (with_ui (setPackages docs s) w, [])
      else None
  | SnapshotError message =>
      if subscribed w
      then Some (with_ui (setUploadMessage
                            ("Failed to load packages: " +:+ message) s) w,
                 [ConsoleError "Error fetching packages:" message])
      else None
  | ChangeName value => Some (with_ui (setPackageName value s) w, [])
  | ChangeDescription value =>
      Some (with_ui (setPackageDescription value s) w, [])
  | ChangeVersion value => Some (with_ui (setPackageVersion value s) w, [])
  | FileChange file =>
      match file with
      | Some f => Some (with_ui (setPackageFile (Some f) s) w, [])
      | None => Some (w, [])
      end
  | Submit =>
      match handleUpload s with
      | (s', calls, Some t) =>
          Some ({| ui := s'; mounted := mounted w;
                   authListener := authListener w; signingIn := signingIn w;
                   subscribed := subscribed w;
                   tasks := <[nextTask w := t]> (tasks w);
                   nextTask := S (nextTask w);
                   committed := committed w |}, calls)
      | (s', calls, None) => Some (with_ui s' w, calls)
      end
  | StateChanged id bytesTransferred totalBytes =>
      match task_in w id with
      | Some {| t_phase := Uploading |} =>
          let progress := JS.percent bytesTransferred totalBytes in
          Some (with_ui
                  (setUploadMessage
                     ("Upload is " +:+ JS.toFixed0 progress +:+ "% done")
                     (setUploadProgress progress s)) w, [])
      | _ => None
      end
  | UploadFailed id message =>
      match task_in w id with
      | Some {| t_phase := Uploading |} =>
          Some (with_tasks (delete id (tasks w))
                  (with_ui (setUploading false
                              (setUploadMessage
                                 ("Upload failed: " +:+ message) s)) w),
                [ConsoleError "Upload failed:" message])
      | _ => None
      end
  | UploadCompleted id =>
      match task_in w id with
      | Some ({| t_phase := Uploading |} as t) =>
          Some (with_tasks (<[id := in_phase ResolvingURL t]> (tasks w)) w,
                [GetDownloadURL (t_ref t)])
      | _ => None
      end
  | DownloadURLSettled id result =>
      match task_in w id with
      | Some ({| t_phase := ResolvingURL |} as t) =>
          match result with
          | inl downloadURL =>
              let s1 :=
                setUploadMessage
                  "Upload successful. Saving package info..." s in
              match t_db t with
              | Some _ =>
                  let record := recordOf t downloadURL in
                  Some (with_tasks
                          (<[id := in_phase (CommittingMetadata record) t]>
                             (tasks w))
                          (with_ui s1 w),
                        [AddDoc packagesCollection record])
              | None =>
                  let '(s2, calls) := catchSave collectionTypeError s1 in
                  Some (with_tasks (delete id (tasks w))
                          (with_ui (finallyReset s2) w), calls)
              end
          | inr message =>
              let '(s2, calls) := catchSave message s in
              Some (with_tasks (delete id (tasks w))
                      (with_ui (finallyReset s2) w), calls)
          end
      | _ => None
      end
  | AddDocSettled id rejected =>
      match task_in w id with
      | Some {| t_phase := CommittingMetadata record |} =>
          match rejected with
          | None =>
              let s1 :=
                setUploadMessage
                  "Package saved successfully! Your SPM program can now fetch it."
                  s in
              Some (with_committed (committed w ++ [record])
                      (with_tasks (delete id (tasks w))
                         (with_ui (finallyReset (clearForm s1)) w)),
                    [ClearFileInput])
          | Some message =>
              let '(s2, calls) := catchSave message s in
              Some (with_tasks (delete id (tasks w))
                      (with_ui (finallyReset s2) w), calls)
          end
      | _ => None
      end
  end.

(** The catalog effect (lines 77-97), run after a render in which [db] or
    [isAuthReady] changed: the previous subscription, if any, is cleaned
    up, and a new one is opened when both are set.  [db] only ever holds
    the one handle made at mount, so a change of [db] is a change of its
    presence. *)
Definition depsChanged (before after : state) : bool :=
  negb (Bool.eqb (JS.present (db before)) (JS.present (db after)))
  || negb (Bool.eqb (isAuthReady before) (isAuthReady after)).

Definition catalogEffect (before : state) (w : world) : world * list call :=
  if depsChanged before (ui w)
  then
    let cleanup := if subscribed w then [Unsubscribe] else [] in
    if JS.present (db (ui w)) && isAuthReady (ui w)
    then (with_subscribed true w, cleanup ++ [OnSnapshot packagesCollection])
    else (with_subscribed false w, cleanup)
  else (w, []).

(** One event: its callback runs, React renders, the catalog effect runs.
    An event with no callback to receive it changes nothing and is not
    logged. *)
Definition step (w : world) (ev : event) : world * list entry :=
  match handle w ev with
  | Some (w1, calls) =>
      let '(w2, calls') := catalogEffect (ui w) w1 in
      (w2, Delivered ev :: map Called (calls ++ calls'))
  | None => (w, [])
  end.

Fixpoint run (w : world) (evs : list event) : world * list entry :=
  match evs with
  | [] => (w, [])
  | ev :: evs' =>
      let '(w1, log1) := step w ev in
      let '(w2, log2) := run w1 evs' in
      (w2, log1 ++ log2)
  end.

Definition session (evs : list event) : world * list entry :=
  run initial_world evs.

(** *** The rendered form (lines 195-255)

    The inputs carry [disabled={!isAuthReady || uploading}] and the
    submit button [disabled={uploading || !isAuthReady}]: the browser
    delivers no change and no submit event from a disabled control. *)
Definition controlsDisabled (s : state) : bool :=
  uploading s || negb (isAuthReady s).

Definition fromForm (ev : event) : bool :=
  match ev with
  | ChangeName _ | ChangeDescription _ | ChangeVersion _
  | FileChange _ | Submit => true
  | _ => false
  end.

Definition formStep (w : world) (ev : event) : world * list entry :=
  if fromForm ev && controlsDisabled (ui w) then (w, []) else step w ev.

Fixpoint formRun (w : world) (evs : list event) : world * list entry :=
  match evs with
  | [] => (w, [])
  | ev :: evs' =>
      let '(w1, log1) := formStep w ev in
      let '(w2, log2) := formRun w1 evs' in
      (w2, log1 ++ log2)
  end.

(** *** Observations on a log *)

Definition storeOp (c : call) : bool :=
  match c with
  | OnSnapshot _ | UploadBytesResumable _ _ | GetDownloadURL _
  | AddDoc _ _ => true
  | _ => false
  end.

Definition readiness (e : entry) : bool :=
  match e with
  | Delivered (AuthStateChanged _ _) => true
  | _ => false
  end.

(** No store call is logged before the auth callback has been invoked;
    [ready] says whether it was invoked before the log starts. *)
Fixpoint gated (ready : bool) (log : list entry) : bool :=
  match log with
  | [] => true
  | Called c :: log' => (ready || negb (storeOp c)) && gated ready log'
  | e :: log' => gated (ready || readiness e) log'
  end.

Definition metadataWrites (log : list entry) : list PackageRecord.t :=
  omap (fun e => match e with Called (AddDoc _ r) => Some r | _ => None end)
       log.

Definition uploadsStarted (log : list entry) : list (string * File) :=
  omap (fun e => match e with
                 | Called (UploadBytesResumable p f) => Some (p, f)
                 | _ => None
                 end) log.

End Coordinator.

(** ** The file name as the specification words it

    "lowercase-alnum-dash-underscore-dot name", then [_v], the version, a
    dot and the original extension, the extension being what follows the
    last dot of the file's name. *)

Module Spec.

Definition normalizedName (name : string) : string :=
  string_of_list_ascii
    (List.filter JS.conforming (List.map JS.lower (list_ascii_of_string name))).

(** The longest prefix without a dot. *)
Fixpoint untilDot (l : list ascii) : list ascii :=
  match l with
  | [] => []
  | c :: l' => if Ascii.eqb c "." then [] else c :: untilDot l'
  end.

Definition extension (file_name : string) : string :=
  string_of_list_ascii
    (List.rev (untilDot (List.rev (list_ascii_of_string file_name)))).

Definition fileName (name version file_name : string) : string :=
  normalizedName name +:+ "_v" +:+ version +:+ "." +:+ extension file_name.

End Spec.

Fixpoint hasDot (s : string) : bool :=
  match s with
  | EmptyString => false
  | String c s' => Ascii.eqb c "." || hasDot s'
  end.

(** Whether the two characters [_v] occur next to each other in [s]. *)
Fixpoint hasUnderscoreV (s : string) : bool :=
  match s with
  | EmptyString => false
  | String a s' =>
      match s' with
      | EmptyString => false
      | String b _ => (Ascii.eqb a "_" && Ascii.eqb b "v") || hasUnderscoreV s'
      end
  end.

(** ** A sample session *)

Module Sample.

Definition app := "default-app-id".
Definition demo : File := {| file_name := "demo.py"; file_size := 2048 |}.

(** Mount, the auth listener reports a signed-in user, the form is
    filled in. *)
Definition filled : list event :=
  [Mount None; AuthStateChanged (Some "uid-1") "f3b0";
   ChangeName "MyCoolApp"; ChangeDescription "A demo"; ChangeVersion "1.0.0";
   FileChange (Some demo)].

Definition ready : world := fst (session app None filled).

(** The form is submitted: one upload is running. *)
Definition uploadingWorld : world := fst (step app None ready Submit).

Definition uploadingTask : task := submitted app (ui ready) demo "uid-1".

(** The upload completed and its download URL arrived: [addDoc] is
  pending. *)
Definition committingWorld : world :=
fst (run app None uploadingWorld
       [StateChanged 0 1024 2048; UploadCompleted 0;
        DownloadURLSettled 0 (inl "https://files.example/demo")]).

Definition committingRecord : PackageRecord.t :=
recordOf uploadingTask "https://files.example/demo".

Definition committingTask : task :=
in_phase (CommittingMetadata committingRecord) uploadingTask.

(** What may arrive while the upload runs: progress, a catalog push, and
  a change of a field that the disabled form does not deliver. *)
Definition whileUploading : list event :=
[StateChanged 0 512 2048; Snapshot []; ChangeName "Other";
 StateChanged 0 1024 2048].

(** The same, then the completion and the download URL. *)
Definition untilCommit : list event :=
whileUploading
  ++ [UploadCompleted 0;
      DownloadURLSettled 0 (inl "https://files.example/demo")].

(** A form whose file has no dot in its name. *)
Definition noDot : File := {| file_name := "demo"; file_size := 16 |}.

Definition noDotState : state :=
setPackageFile (Some noDot)
  (setPackageVersion "1" (setPackageName "App" (ui ready))).

(** The auth listener first reports no user, then a signed-in one. *)
Definition anonymousFirst : list event :=
[Mount None; AuthStateChanged None "fallback-7c1e"].

Definition signedInLater : list event :=
anonymousFirst ++ [AuthStateChanged (Some "uid-1") "unused"].

(** ... and then a package is published. *)
Definition publishedLater : list event :=
signedInLater
  ++ [ChangeName "MyCoolApp"; ChangeDescription "A demo";
      ChangeVersion "1.0.0"; FileChange (Some demo); Submit;
      UploadCompleted 0;
      DownloadURLSettled 0 (inl "https://files.example/demo")].

(** The form is submitted under the fallback identity, and the signed-in
  user is reported while the upload runs. *)
Definition submittedAnonymously : list event :=
anonymousFirst
  ++ [ChangeName "MyCoolApp"; ChangeDescription "A demo";
      ChangeVersion "1.0.0"; FileChange (Some demo); Submit].

Definition signedInMeanwhile : list event :=
submittedAnonymously
  ++ [AuthStateChanged (Some "uid-1") "unused"; UploadCompleted 0].

(** ... and the publish goes through. *)
Definition publishedMeanwhile : list event :=
signedInMeanwhile
  ++ [DownloadURLSettled 0 (inl "https://files.example/demo");
      AddDocSettled 0 None].

End Sample.

(** ** Invariants of a session and observations used to state them *)

(** What holds of every world a session reaches: the three handles are set
    together, a user id is only there once readiness fired, and an upload
    in flight was started after readiness, with the database handle, under
    an identifier that is not handed out again. *)
Definition consistent (w : world) : Prop :=
  JS.present (db (ui w)) = JS.present (auth (ui w))
  /\ JS.present (storage (ui w)) = JS.present (auth (ui w))
  /\ (JS.present (userId (ui w)) = true -> isAuthReady (ui w) = true)
  /\ forall id t, tasks w !! id = Some t ->
       isAuthReady (ui w) = true /\ JS.present (t_db t) = true
       /\ id < nextTask w.

(** At most one upload is in flight, and the [uploading] flag is set while
    it is. *)
Definition atMostOne (w : world) : Prop :=
  tasks w = ∅
  \/ (exists id t, tasks w = {[ id := t ]}) /\ uploading (ui w) = true.

(** The identity an auth callback carries: the user's [uid], or the random
    string generated when there is no user. *)
Definition carried (e : entry) : option string :=
  match e with
  | Delivered (AuthStateChanged (Some uid) _) => Some uid
  | Delivered (AuthStateChanged None randomUUID) => Some randomUUID
  | _ => None
  end.

Definition identities (log : list entry) : list string := omap carried log.

(** How a world relates to the log that led to it: readiness is set once
    an auth callback was delivered, the user id is the identity the last
    one carried, and every upload in flight and every record written bears
    an identity some callback carried. *)
Definition tracked (w : world) (log : list entry) : Prop :=
  isAuthReady (ui w) = existsb readiness log
  /\ userId (ui w) = last (identities log)
  /\ (forall id t, tasks w !! id = Some t ->
        t_userId t ∈ identities log
        /\ forall r, t_phase t = CommittingMetadata r ->
             PackageRecord.uploaderId r = t_userId t)
  /\ forall r, r ∈ metadataWrites log ->
       PackageRecord.uploaderId r ∈ identities log.

(** Progress events of one upload. *)
Definition progressEvents (id : nat) (ps : list (N * N)) : list event :=
  List.map (fun p => StateChanged id (fst p) (snd p)) ps.

(** What holds while the upload [id], started from the closure [tsub] with
    the form [F] and the committed records [C], is still in flight: it is
    the only one, its closure and the form are untouched, nothing more was
    committed, and the metadata writes logged since its start are none
    before [addDoc] is called and, after, the one record made from the
    closure and a download URL that was delivered. *)
Definition inflight (id : nat) (tsub : task)
    (F : string * string * string * option File)
    (C : list PackageRecord.t) (w : world) (log : list entry) : Prop :=
  atMostOne w /\ id < nextTask w
  /\ forall t, tasks w !! id = Some t ->
       t = in_phase (t_phase t) tsub /\ form (ui w) = F /\ committed w = C
       /\ match t_phase t with
          | CommittingMetadata r =>
              metadataWrites log = [r]
              /\ exists url,
                   r = recordOf tsub url
                   /\ In (Delivered (DownloadURLSettled id (inl url))) log
          | _ => metadataWrites log = []
          end.

(** ** What a package card shows of the uploader (line 279) *)

Module View.

(** [s.substring(0, n)]: the first [n] code units, all of [s] when it is
    shorter. *)
Fixpoint substring0 (n : nat) (s : string) : string :=
  match n, s with
  | S n', String c s' => String c (substring0 n' s')
  | _, _ => EmptyString
  end.

(** [pkg.uploaderId ? pkg.uploaderId.substring(0, 8) + '...' : 'N/A']. *)
Definition uploaderText (pkg : PackageRecord.t) : string :=
  if JS.truthy (PackageRecord.uploaderId pkg)
  then substring0 8 (PackageRecord.uploaderId pkg) +:+ "..."
  else "N/A".

End View.

(** ** Observations used by the further properties *)

(** The catalogs delivered by the snapshot listener, oldest first. *)
Definition snapshots (log : list entry) : list (list Doc) :=
  omap (fun e => match e with
                 | Delivered (Snapshot docs) => Some docs
                 | _ => None
                 end) log.

(** The collection paths [onSnapshot] was called with. *)
Definition subscriptionsOpened (log : list entry) : list string :=
  omap (fun e => match e with
                 | Called (OnSnapshot p) => Some p
                 | _ => None
                 end) log.

(** What the progress handler leaves in [uploadProgress] and in
    [uploadMessage] when the upload [id] reports [a] bytes of [b]. *)
Definition progressShown (appId : string) (initialAuthToken : option string)
    (w : world) (id : nat) (a b : N) : JS.number * string :=
  let s := ui (fst (step appId initialAuthToken w (StateChanged id a b))) in
  (uploadProgress s, uploadMessage s).

(** A component whose mount effect threw: no handle, no listener, no user
    id, nothing in flight. *)
Definition inert (w : world) : Prop :=
  mounted w = true /\ authListener w = false /\ signingIn w = false
  /\ subscribed w = false /\ tasks w = ∅
  /\ db (ui w) = None /\ auth (ui w) = None /\ storage (ui w) = None
  /\ userId (ui w) = None /\ isAuthReady (ui w) = false.

(** The ways one publish can fail after its upload was started: the
    uploader reports an error, [getDownloadURL] rejects, or [addDoc]
    rejects. *)
Inductive failure : Type :=
| UploadError (message : string)
| DownloadURLError (message : string)
| CommitError (message : string).

(** The event that brings the failure to the upload [id]. *)
Definition failureEvent (id : nat) (f : failure) : event :=
  match f with
  | UploadError message => UploadFailed id message
  | DownloadURLError message => DownloadURLSettled id (inr message)
  | CommitError message => AddDocSettled id (Some message)
  end.

(** The phase in which an upload can meet the failure. *)
Definition awaited (f : failure) (p : phase) : bool :=
  match f, p with
  | UploadError _, Uploading => true
  | DownloadURLError _, ResolvingURL => true
  | CommitError _, CommittingMetadata _ => true
  | _, _ => false
  end.

(** A record with every required field filled in. *)
Definition complete (r : PackageRecord.t) : bool :=
  JS.truthy (PackageRecord.name r) && JS.truthy (PackageRecord.displayName r)
  && JS.truthy (PackageRecord.description r)
  && JS.truthy (PackageRecord.version r)
  && JS.truthy (PackageRecord.fileName r)
  && JS.truthy (PackageRecord.uploaderId r).

(** How the uploads in flight and the records written relate to the log
    that led to a world: an upload closed over non-empty fields, its
    storage path is the one of its file name, the call that started it is
    in the log, and so are its completion and the request for its download
    URL once it has left the uploading phase; a record waiting to be
    committed was made from the closure; and every record written is
    complete. *)
Definition traced (appId : string) (w : world) (log : list entry) : Prop :=
  (forall id t, tasks w !! id = Some t ->
     JS.truthy (t_packageName t) = true
     /\ JS.truthy (t_packageDescription t) = true
     /\ JS.truthy (t_packageVersion t) = true
     /\ JS.truthy (t_userId t) = true
     /\ t_ref t = storagePath appId (t_fileName t)
     /\ (exists f,
          t_fileName t
          = fileName_of (t_packageName t) (t_packageVersion t) (file_name f)
          /\ In (Called (UploadBytesResumable (t_ref t) f)) log)
     /\ (t_phase t <> Uploading ->
         In (Delivered (UploadCompleted id)) log
         /\ In (Called (GetDownloadURL (t_ref t))) log)
     /\ (forall r, t_phase t = CommittingMetadata r ->
         exists url, r = recordOf t url))
  /\ forall r, r ∈ metadataWrites log ->
       complete r = true
       /\ PackageRecord.name r = JS.toLowerCase (PackageRecord.displayName r)
       /\ PackageRecord.uploadTime r = ServerTimestamp.

(** ** Further sample states and sessions *)

Module Cases.

(** The sample form with a name that sanitizing empties. *)
Definition bangs : state := setPackageName "!!!" (ui Sample.ready).

(** The sample upload has completed; its download URL is awaited. *)
Definition beforeCommit : list event :=
  Sample.filled ++ [Submit; UploadCompleted 0].

Definition urlArrives : event :=
  DownloadURLSettled 0 (inl "https://files.example/demo").

Definition written : list event := beforeCommit ++ [urlArrives].

End Cases.

(** ** Proof steps used throughout *)

(** Case analysis on a callback that ran. *)
Ltac handle_inv H := simpl in H; repeat case_match; simplify_eq.

(** One step of a known upload task, evaluated. *)
Ltac step_simpl L :=
  unfold step, handle, task_in; rewrite L; simpl;
  unfold catalogEffect, depsChanged; simpl; rewrite ?Bool.eqb_reflx; simpl.

(** A closed fact, by evaluation. *)
Ltac by_computation :=
  vm_compute; first [reflexivity | discriminate | congruence].

(** * Properties *)

(** ** Strings *)

Lemma append_nil (b : string) : "" +:+ b = b.
Proof. reflexivity. Qed.

Lemma append_cons (c : ascii) (a b : string) :
  String c a +:+ b = String c (a +:+ b).
Proof. reflexivity. Qed.

Lemma append_assoc (x y z : string) : (x +:+ y) +:+ z = x +:+ y +:+ z.
Proof. induction x; rewrite ?append_nil, ?append_cons; congruence. Qed.

Lemma list_ascii_app (a b : string) :
  list_ascii_of_string (a +:+ b)
  = list_ascii_of_string a ++ list_ascii_of_string b.
Proof. induction a as [|c a IH]; simpl; [reflexivity | now rewrite IH]. Qed.

Lemma list_ascii_inj (a b : string) :
  list_ascii_of_string a = list_ascii_of_string b -> a = b.
Proof.
  intros H. rewrite <- (string_of_list_ascii_of_string a),
    <- (string_of_list_ascii_of_string b). now rewrite H.
Qed.

Lemma append_inv_head (s a b : string) : s +:+ a = s +:+ b -> a = b.
Proof. induction s as [|c s IH]; simpl; intros H; [assumption|]. injection H. exact IH. Qed.

Lemma append_inv_tail (s a b : string) : a +:+ s = b +:+ s -> a = b.
Proof.
  intros H. apply list_ascii_inj.
  apply (f_equal list_ascii_of_string) in H.
  rewrite !list_ascii_app in H. now apply app_inv_tail in H.
Qed.

Lemma sanitized_refines (name : string) :
  sanitizedPackageName name = Spec.normalizedName name.
Proof.
  unfold sanitizedPackageName, Spec.normalizedName.
  induction name as [|c name IH]; simpl; [reflexivity|].
  destruct (JS.conforming (JS.lower c)); simpl; now rewrite IH.
Qed.

Lemma split_dot_nodot (s : string) : hasDot s = false -> JS.split_dot s = [s].
Proof.
  induction s as [|c s IH]; simpl; [reflexivity|].
  destruct (Ascii.eqb c "."); simpl; [discriminate|].
  intros H. now rewrite (IH H).
Qed.

Lemma split_dot_hasDot (s : string) :
  hasDot s = true -> exists seg seg' segs, JS.split_dot s = seg :: seg' :: segs.
Proof.
  induction s as [|c s IH]; simpl; [discriminate|].
  destruct (Ascii.eqb c ".") eqn:E; simpl.
  - intros _. destruct (hasDot s) eqn:D.
    + destruct (IH eq_refl) as (a & b & l & ->). now exists EmptyString, a, (b :: l).
    + rewrite (split_dot_nodot s D). now exists EmptyString, s, [].
  - intros D. destruct (IH D) as (a & b & l & ->). now exists (String c a), b, l.
Qed.

Lemma fileExtension_nodot (s : string) : hasDot s = false -> fileExtension s = s.
Proof. intros H. unfold fileExtension. now rewrite (split_dot_nodot s H). Qed.

Lemma fileExtension_cons (c : ascii) (s : string) :
  Ascii.eqb c "." || hasDot s = true ->
  fileExtension (String c s) = fileExtension s.
Proof.
  unfold fileExtension. simpl. destruct (Ascii.eqb c ".") eqn:E; simpl.
  - intros _. destruct (JS.split_dot s) eqn:S; [|reflexivity].
    destruct s; simpl in S; [discriminate|].
    destruct (Ascii.eqb a "."); [discriminate|].
    destruct (JS.split_dot s); discriminate.
  - intros D. destruct (split_dot_hasDot s D) as (a & b & l & ->). reflexivity.
Qed.

Lemma existsb_dot (s : string) :
  existsb (fun c => Ascii.eqb c ".") (list_ascii_of_string s) = hasDot s.
Proof. induction s as [|c s IH]; simpl; [reflexivity | now rewrite IH]. Qed.

Lemma existsb_rev {A} (f : A -> bool) (l : list A) :
  existsb f (List.rev l) = existsb f l.
Proof.
  induction l as [|x l IH]; simpl; [reflexivity|].
  rewrite existsb_app, IH. simpl. rewrite orb_false_r. apply orb_comm.
Qed.

Lemma untilDot_app (l m : list ascii) :
  Spec.untilDot (l ++ m)
  = if existsb (fun c => Ascii.eqb c ".") l then Spec.untilDot l
    else l ++ Spec.untilDot m.
Proof.
  induction l as [|c l IH]; simpl; [reflexivity|].
  destruct (Ascii.eqb c "."); simpl; [reflexivity|].
  rewrite IH. now destruct (existsb _ l).
Qed.

Lemma extension_refines (file_name : string) :
  fileExtension file_name = Spec.extension file_name.
Proof.
  unfold Spec.extension.
  induction file_name as [|c s IH]; [reflexivity|].
  simpl list_ascii_of_string. simpl List.rev. rewrite untilDot_app.
  rewrite existsb_rev, existsb_dot.
  destruct (hasDot s) eqn:D.
  - rewrite fileExtension_cons by (rewrite D; apply orb_true_r). exact IH.
  - simpl. destruct (Ascii.eqb c ".") eqn:E.
    + rewrite fileExtension_cons by (rewrite E; reflexivity).
      rewrite fileExtension_nodot by exact D.
      rewrite app_nil_r, rev_involutive.
      now rewrite string_of_list_ascii_of_string.
    + rewrite fileExtension_nodot by (simpl; now rewrite E, D).
      rewrite rev_app_distr, rev_involutive. simpl.
      now rewrite string_of_list_ascii_of_string.
Qed.

Lemma fileName_refines (name version file_name : string) :
  fileName_of name version file_name = Spec.fileName name version file_name.
Proof.
  unfold fileName_of, Spec.fileName.
  now rewrite sanitized_refines, extension_refines.
Qed.

(** ** The guard and the start of an upload *)

Section Properties.

Variable appId : string.
Variable initialAuthToken : option string.

Lemma truthy_empty (x : string) : JS.truthy x = false <-> x = "".
Proof. destruct x; simpl; split; congruence. Qed.

Lemma present_none {A} (o : option A) : JS.present o = false <-> o = None.
Proof. destruct o; simpl; split; congruence. Qed.

Lemma missingInput_false (s : state) :
  missingInput s = false ->
  exists f uid,
    packageFile s = Some f /\ userId s = Some uid /\ JS.truthy uid = true
    /\ JS.truthy (packageName s) = true
    /\ JS.truthy (packageDescription s) = true
    /\ JS.truthy (packageVersion s) = true
    /\ JS.present (auth s) = true.
Proof.
  unfold missingInput. intros H.
  repeat (apply orb_false_elim in H; destruct H as [H ?]).
  rewrite negb_false_iff in *.
  destruct (packageFile s) as [f|]; [|discriminate].
  destruct (userId s) as [uid|]; [|discriminate].
  exists f, uid. repeat split; assumption.
Qed.

Lemma handleUpload_Some (s s' : state) (cs : list call) (t : task) :
  handleUpload appId s = (s', cs, Some t) ->
  missingInput s = false /\ JS.present (storage s) = true /\ s' = started s
  /\ exists f uid,
       packageFile s = Some f /\ userId s = Some uid
       /\ cs = [UploadBytesResumable (t_ref t) f]
       /\ t = submitted appId s f uid.
Proof.
  unfold handleUpload. destruct (missingInput s); [discriminate|].
  destruct (packageFile s) as [f|]; [|discriminate].
  destruct (userId s) as [uid|]; [|discriminate].
  destruct (storage s); [|discriminate].
  intros H. injection H as <- <- <-. repeat split.
  exists f, uid. repeat split.
Qed.

Lemma handleUpload_None (s s' : state) (cs : list call) :
  handleUpload appId s = (s', cs, None) ->
  cs = []
  /\ (missingInput s = true /\ s' = setUploadMessage fillAllFields s
      \/ missingInput s = false /\ JS.present (storage s) = false
         /\ s' = started s).
Proof.
  unfold handleUpload. destruct (missingInput s) eqn:M.
  - intros H. injection H as <- <-. tauto.
  - destruct (missingInput_false s M) as (f & uid & -> & -> & _).
    destruct (storage s); [discriminate|].
    intros H. injection H as <- <-. split; [reflexivity|]. right. tauto.
Qed.

Lemma handleUpload_started (s : state) :
  missingInput s = false -> JS.present (storage s) = true ->
  exists f uid,
    packageFile s = Some f /\ userId s = Some uid
    /\ handleUpload appId s
       = (started s,
          [UploadBytesResumable
             (storagePath appId
                (fileName_of (packageName s) (packageVersion s) (file_name f)))
             f],
          Some (submitted appId s f uid)).
Proof.
  intros M St. destruct (missingInput_false s M) as (f & uid & Hf & Hu & _).
  exists f, uid. repeat split; try assumption.
  unfold handleUpload. rewrite M, Hf, Hu.
  destruct (storage s); [reflexivity | discriminate].
Qed.

(** ** One step keeps a world consistent *)


Lemma handle_consistent (w w1 : world) (ev : event) (cs : list call) :
  consistent w -> handle appId initialAuthToken w ev = Some (w1, cs) ->
  consistent w1.
Proof.
  intros (Hdb & Hst & Hu & Ht) H.
  destruct ev; handle_inv H; unfold consistent; simpl.
  all: try (apply handleUpload_Some in H0
              as (M & S & -> & f & uid & Hf & Hu' & -> & ->)).
  all: try (apply handleUpload_None in H0
              as (-> & [(M & ->)|(M & S & ->)])).
  all: simpl; split_and!; try done.
  all: try (intros id' t' L;
    first [apply lookup_insert_Some in L as [(<- & <-)|(Hne & L)]
          | apply lookup_delete_Some in L as (Hne & L) | idtac ];
    try (destruct (Ht _ _ L) as (? & ? & ?));
    try (destruct (Ht _ _ H0) as (? & ? & ?));
    split_and!; simpl; try done; try lia).
  - apply Hu. now rewrite Hu'.
  - rewrite Hdb, <- Hst. exact S.
Qed.

Lemma catalogEffect_frame (before : state) (w w' : world) (cs : list call) :
  catalogEffect appId before w = (w', cs) ->
  w' = with_subscribed (subscribed w') w
  /\ (cs = [] \/ cs = [Unsubscribe]
      \/ (isAuthReady (ui w) = true
          /\ (cs = [OnSnapshot (packagesCollection appId)]
              \/ cs = [Unsubscribe; OnSnapshot (packagesCollection appId)]))).
Proof.
  unfold catalogEffect. intros H.
  destruct (depsChanged before (ui w)).
  - destruct (JS.present (db (ui w)) && isAuthReady (ui w)) eqn:E;
      injection H as <- <-; simpl; (split; [reflexivity|]).
    + apply andb_true_iff in E as [_ E].
      destruct (subscribed w); simpl; tauto.
    + destruct (subscribed w); simpl; tauto.
  - injection H as <- <-. split; [now destruct w | tauto].
Qed.

Lemma step_inv (w w' : world) (ev : event) (log : list entry) :
  step appId initialAuthToken w ev = (w', log) ->
  (handle appId initialAuthToken w ev = None /\ w' = w /\ log = [])
  \/ exists w1 cs cs',
       handle appId initialAuthToken w ev = Some (w1, cs)
       /\ catalogEffect appId (ui w) w1 = (w', cs')
       /\ log = Delivered ev :: List.map Called (cs ++ cs').
Proof.
  unfold step. destruct (handle appId initialAuthToken w ev) as [[w1 cs]|].
  - destruct (catalogEffect appId (ui w) w1) as [w2 cs'] eqn:C.
    intros H. injection H as <- <-. right. now exists w1, cs, cs'.
  - intros H. injection H as <- <-. now left.
Qed.

Lemma step_consistent (w : world) (ev : event) :
  consistent w -> consistent (fst (step appId initialAuthToken w ev)).
Proof.
  intros C. destruct (step appId initialAuthToken w ev) as [w' log] eqn:S.
  apply step_inv in S as [(_ & -> & _)|(w1 & cs & cs' & H & E & _)];
    [exact C|].
  apply catalogEffect_frame in E as (-> & _). simpl.
  exact (handle_consistent _ _ _ _ C H).
Qed.

Lemma run_app (w : world) (evs1 evs2 : list event) :
  run appId initialAuthToken w (evs1 ++ evs2)
  = let '(w1, log1) := run appId initialAuthToken w evs1 in
    let '(w2, log2) := run appId initialAuthToken w1 evs2 in
    (w2, log1 ++ log2).
Proof.
  revert w. induction evs1 as [|ev evs1 IH]; intros w; simpl.
  - now destruct (run appId initialAuthToken w evs2).
  - destruct (step appId initialAuthToken w ev) as [w1 log1].
    rewrite IH.
    destruct (run appId initialAuthToken w1 evs1) as [w2 log2].
    destruct (run appId initialAuthToken w2 evs2) as [w3 log3].
    now rewrite app_assoc.
Qed.

Lemma run_consistent (w : world) (evs : list event) :
  consistent w -> consistent (fst (run appId initialAuthToken w evs)).
Proof.
  revert w. induction evs as [|ev evs IH]; intros w C; simpl; [exact C|].
  pose proof (step_consistent w ev C) as C1.
  destruct (step appId initialAuthToken w ev) as [w1 log1].
  specialize (IH w1 C1).
  now destruct (run appId initialAuthToken w1 evs).
Qed.

Lemma initial_consistent : consistent initial_world.
Proof.
  unfold consistent. simpl.
  split_and!; try done; intros id t L; now rewrite lookup_empty in L.
Qed.

Lemma session_consistent (evs : list event) :
  consistent (fst (session appId initialAuthToken evs)).
Proof. apply run_consistent, initial_consistent. Qed.

(** ** The derived file name *)

Lemma separator_unique (a b v w : string) :
  hasUnderscoreV a = false -> hasUnderscoreV b = false ->
  a +:+ "_v" +:+ v = b +:+ "_v" +:+ w -> a = b /\ v = w.
Proof.
  revert b. induction a as [|c a IH]; intros b Ha Hb E.
  - destruct b as [|d b]; rewrite ?append_cons, ?append_nil in E.
    + injection E as ->. now split.
    + injection E as <- E.
      destruct b as [|e b]; rewrite ?append_cons, ?append_nil in E.
      * discriminate.
      * injection E as <- _. simpl in Hb. discriminate.
  - destruct b as [|d b]; rewrite ?append_cons, ?append_nil in E.
    + injection E as -> E.
      destruct a as [|e a]; rewrite ?append_cons, ?append_nil in E.
      * discriminate.
      * injection E as -> _. simpl in Ha. discriminate.
    + injection E as <- E.
      assert (Ha' : hasUnderscoreV a = false).
      { simpl in Ha. destruct a; [reflexivity|].
        now apply orb_false_elim in Ha as [_ Ha]. }
      assert (Hb' : hasUnderscoreV b = false).
      { simpl in Hb. destruct b; [reflexivity|].
        now apply orb_false_elim in Hb as [_ Hb]. }
      destruct (IH b Ha' Hb' E) as (-> & ->). now split.
Qed.

(** C5.  [handleUpload] uploads to the path whose file name is the one the
    specification words: the lowercased name with every character outside
    [[a-z0-9_.-]] removed, then [_v], the version, a dot and what follows
    the last dot of the file's name; the upload task keeps that same file
    name for the record.  For name [MyCoolApp], version [1.0.0] and file
    [demo.py] the file name is [mycoolapp_v1.0.0.py]. *)
Theorem fileName_deterministic (s : state) (f : File) :
  packageFile s = Some f ->
  missingInput s = false ->
  JS.present (storage s) = true ->
  (exists t,
     handleUpload appId s
     = (started s,
        [UploadBytesResumable
           ("artifacts/" +:+ appId +:+ "/packages/"
              +:+ Spec.fileName (packageName s) (packageVersion s) (file_name f))
           f],
        Some t)
     /\ t_fileName t
        = Spec.fileName (packageName s) (packageVersion s) (file_name f))
  /\ fileName_of "MyCoolApp" "1.0.0" "demo.py" = "mycoolapp_v1.0.0.py".
Proof.
  intros Hf M St. split; [|reflexivity].
  destruct (handleUpload_started s M St) as (f' & uid & Hf' & _ & H).
  rewrite Hf in Hf'. injection Hf' as <-.
  exists (submitted appId s f uid). rewrite H. unfold storagePath.
  rewrite fileName_refines. split; [reflexivity|].
  simpl. apply fileName_refines.
Qed.

(** C6, amended.  With the same file extension, two publishes get the same
    file name exactly when they have the same sanitized name and the same
    version, as long as their versions are equal, or their sanitized names
    are equal, or neither sanitized name contains [_v]. *)
Theorem fileName_separates (n1 v1 f1 n2 v2 f2 : string) :
  fileExtension f1 = fileExtension f2 ->
  v1 = v2 \/ sanitizedPackageName n1 = sanitizedPackageName n2
  \/ (hasUnderscoreV (sanitizedPackageName n1) = false
      /\ hasUnderscoreV (sanitizedPackageName n2) = false) ->
  fileName_of n1 v1 f1 = fileName_of n2 v2 f2
  <-> sanitizedPackageName n1 = sanitizedPackageName n2 /\ v1 = v2.
Proof.
  intros He Hc. unfold fileName_of. rewrite He. split.
  - intros E. destruct Hc as [->|[Hs|[H1 H2]]].
    + apply append_inv_tail in E. now split.
    + rewrite Hs in E. split; [exact Hs|].
      do 2 apply append_inv_head in E. now apply append_inv_tail in E.
    + assert (E' : sanitizedPackageName n1 +:+ "_v" +:+ v1
                   = sanitizedPackageName n2 +:+ "_v" +:+ v2).
      { apply (append_inv_tail ("." +:+ fileExtension f2)).
        now rewrite !append_assoc. }
      exact (separator_unique _ _ _ _ H1 H2 E').
  - now intros (-> & ->).
Qed.

(** C10.  A file whose name has no dot is its own extension: [handleUpload]
    does not reject it and uploads it under the sanitized name, [_v], the
    version, a dot and the whole file name.  File [demo] with name [App]
    and version [1] gives [app_v1.demo]. *)
Theorem extension_without_dot (s : state) (f : File) :
  packageFile s = Some f ->
  hasDot (file_name f) = false ->
  missingInput s = false ->
  JS.present (storage s) = true ->
  fileExtension (file_name f) = file_name f
  /\ (exists t,
        handleUpload appId s
        = (started s,
           [UploadBytesResumable
              (storagePath appId
                 (sanitizedPackageName (packageName s) +:+ "_v"
                    +:+ packageVersion s +:+ "." +:+ file_name f))
              f],
           Some t))
  /\ fileName_of "App" "1" "demo" = "app_v1.demo".
Proof.
  intros Hf D M St. split_and!; [now apply fileExtension_nodot | | reflexivity].
  destruct (handleUpload_started s M St) as (f' & uid & Hf' & _ & H).
  rewrite Hf in Hf'. injection Hf' as <-.
  exists (submitted appId s f uid). rewrite H. unfold fileName_of.
  now rewrite (fileExtension_nodot _ D).
Qed.

(** C4.  In every state a session reaches, [handleUpload] stops at its
    guard (nothing called, no upload task, only the message asking to fill
    all fields set) exactly when the name, the description or the version
    is empty, no file is selected, the user id is [null] or empty, or one
    of the handles [auth], [db], [storage] is still [null]. *)
Theorem rejected_iff_missing (evs : list event) :
  let s := ui (fst (session appId initialAuthToken evs)) in
  handleUpload appId s = (setUploadMessage fillAllFields s, [], None)
  <-> (packageName s = "" \/ packageDescription s = ""
       \/ packageVersion s = "" \/ packageFile s = None
       \/ JS.truthy_opt (userId s) = false
       \/ auth s = None \/ db s = None \/ storage s = None).
Proof.
  intros s. destruct (session_consistent evs) as (Hdb & Hst & _).
  fold s in Hdb, Hst. split.
  - intros H. destruct (missingInput s) eqn:M.
    + unfold missingInput in M.
      repeat (apply orb_true_iff in M as [M|M]);
        apply negb_true_iff in M;
        rewrite ?truthy_empty, ?present_none in M; tauto.
    + destruct (missingInput_false s M) as (_ & _ & _ & _ & _ & _ & _ & _ & A).
      rewrite <- Hst in A.
      destruct (handleUpload_started s M A) as (f & uid & _ & _ & H').
      rewrite H' in H. discriminate.
  - intros H. assert (M : missingInput s = true).
    { unfold missingInput.
      rewrite <- !present_none, <- !truthy_empty in H. rewrite Hdb, Hst in H.
      rewrite !orb_true_iff, !negb_true_iff. tauto. }
    unfold handleUpload. now rewrite M.
Qed.

(** ** Readiness gating *)

Lemma gated_app (b : bool) (l1 l2 : list entry) :
  gated b (l1 ++ l2)
  = gated b l1 && gated (b || existsb readiness l1) l2.
Proof.
  revert b. induction l1 as [|e l1 IH]; intros b; simpl.
  - now rewrite orb_false_r.
  - destruct e as [ev|c]; simpl.
    + rewrite IH. now rewrite orb_assoc.
    + rewrite IH. now rewrite andb_assoc.
Qed.

Lemma gated_calls (b : bool) (cs : list call) :
  gated b (List.map Called cs)
  = forallb (fun c => b || negb (storeOp c)) cs.
Proof. induction cs as [|c cs IH]; simpl; [reflexivity | now rewrite IH]. Qed.

Lemma readiness_calls (cs : list call) :
  existsb readiness (List.map Called cs) = false.
Proof. induction cs as [|c cs IH]; simpl; [reflexivity | exact IH]. Qed.

Lemma handle_gated (w w1 : world) (ev : event) (cs : list call) :
  consistent w -> handle appId initialAuthToken w ev = Some (w1, cs) ->
  forallb (fun c => isAuthReady (ui w) || negb (storeOp c)) cs = true
  /\ isAuthReady (ui w1) = isAuthReady (ui w) || readiness (Delivered ev).
Proof.
  intros (Hdb & Hst & Hu & Ht) H.
  destruct ev; handle_inv H; simpl.
  all: try (apply handleUpload_Some in H0
              as (M & S & -> & f & uid & Hf & Hu' & -> & ->)).
  all: try (apply handleUpload_None in H0
              as (-> & [(M & ->)|(M & S & ->)])).
  all: try (destruct (Ht _ _ H0) as (-> & _)).
  all: simpl; rewrite ?orb_false_r, ?orb_true_r, ?andb_true_r;
    try (split; reflexivity).
  - destruct n as [|[|[|[|n]]]]; simpl;
      rewrite ?orb_true_r; split; reflexivity.
  - unfold signInCall. destruct initialAuthToken as [tok|];
      [destruct (JS.truthy tok)|]; simpl; rewrite orb_true_r;
      split; reflexivity.
  - rewrite Hu by now rewrite Hu'. split; reflexivity.
Qed.

Lemma step_gated (w w' : world) (ev : event) (log : list entry) :
  consistent w -> step appId initialAuthToken w ev = (w', log) ->
  gated (isAuthReady (ui w)) log = true
  /\ isAuthReady (ui w') = isAuthReady (ui w) || existsb readiness log.
Proof.
  intros C S.
  apply step_inv in S as [(_ & -> & ->)|(w1 & cs & cs' & H & E & ->)].
  - simpl. now rewrite orb_false_r.
  - destruct (handle_gated _ _ _ _ C H) as (G & R).
    apply catalogEffect_frame in E as (-> & E). simpl ui.
    change (gated (isAuthReady (ui w)) (Delivered ev :: List.map Called (cs ++ cs')))
      with (gated (isAuthReady (ui w) || readiness (Delivered ev))
              (List.map Called (cs ++ cs'))).
    change (existsb readiness (Delivered ev :: List.map Called (cs ++ cs')))
      with (readiness (Delivered ev)
            || existsb readiness (List.map Called (cs ++ cs'))).
    rewrite readiness_calls, orb_false_r, <- R. split; [|reflexivity].
    rewrite gated_calls, forallb_app. apply andb_true_iff. split.
    + rewrite forallb_forall in G |- *. intros c Hc.
      specialize (G c Hc). rewrite R.
      destruct (isAuthReady (ui w)); [reflexivity|].
      simpl in G |- *. rewrite G. apply orb_true_r.
    + destruct E as [->|[->|(Hr & [->| ->])]]; simpl;
        rewrite ?Hr, ?orb_true_r; reflexivity.
Qed.

Lemma run_gated (w w' : world) (evs : list event) (log : list entry) :
  consistent w -> run appId initialAuthToken w evs = (w', log) ->
  gated (isAuthReady (ui w)) log = true.
Proof.
  revert w w' log. induction evs as [|ev evs IH]; intros w w' log C R;
    simpl in R.
  - now injection R as <- <-.
  - destruct (step appId initialAuthToken w ev) as [w1 log1] eqn:S.
    destruct (run appId initialAuthToken w1 evs) as [w2 log2] eqn:R2.
    injection R as <- <-.
    destruct (step_gated _ _ _ _ C S) as (G & A).
    rewrite gated_app, G, <- A. simpl.
    apply (IH w1 w2 log2); [|exact R2].
    pose proof (step_consistent w ev C) as C1. now rewrite S in C1.
Qed.

Lemma gated_sound (b : bool) (log pre post : list entry) (c : call) :
  gated b log = true -> log = pre ++ Called c :: post -> storeOp c = true ->
  b = true
  \/ exists user randomUUID,
       In (Delivered (AuthStateChanged user randomUUID)) pre.
Proof.
  intros G -> Sc. revert b G. induction pre as [|e pre IH]; intros b G.
  - simpl in G. rewrite Sc in G. simpl in G.
    rewrite orb_false_r in G. apply andb_true_iff in G as [G _]. now left.
  - destruct e as [ev|c']; simpl in G.
    + destruct (IH _ G) as [B|(u & x & I)].
      * apply orb_true_iff in B as [B|B]; [now left|].
        right. destruct ev; try discriminate.
        exists user, randomUUID. now left.
      * right. exists u, x. now right.
    + apply andb_true_iff in G as [_ G].
      destruct (IH _ G) as [B|(u & x & I)]; [now left|].
      right. exists u, x. now right.
Qed.

(** C2.  In the log of any session, every store call (opening the catalog
    subscription, starting an upload, resolving a download URL, writing a
    metadata record) comes after a delivery of the auth-state callback,
    which is what sets [isAuthReady]. *)
Theorem readiness_gating (evs : list event) (pre post : list entry) (c : call) :
  snd (session appId initialAuthToken evs) = pre ++ Called c :: post ->
  storeOp c = true ->
  exists user randomUUID,
    In (Delivered (AuthStateChanged user randomUUID)) pre.
Proof.
  intros L Sc.
  destruct (session appId initialAuthToken evs) as [w log] eqn:R.
  simpl in L. unfold session in R.
  pose proof (run_gated _ _ _ _ initial_consistent R) as G.
  destruct (gated_sound _ _ _ _ _ G L Sc) as [B|H]; [discriminate | exact H].
Qed.

(** ** One publish, event by event *)


Lemma step_Submit (w : world) :
  consistent w -> missingInput (ui w) = false ->
  exists f uid,
    packageFile (ui w) = Some f /\ userId (ui w) = Some uid
    /\ step appId initialAuthToken w Submit
       = ({| ui := started (ui w); mounted := mounted w;
             authListener := authListener w; signingIn := signingIn w;
             subscribed := subscribed w;
             tasks := <[nextTask w := submitted appId (ui w) f uid]> (tasks w);
             nextTask := S (nextTask w); committed := committed w |},
          [Delivered Submit;
           Called (UploadBytesResumable
                     (storagePath appId
                        (fileName_of (packageName (ui w))
                           (packageVersion (ui w)) (file_name f))) f)]).
Proof.
  intros (Hdb & Hst & _) M.
  assert (St : JS.present (storage (ui w)) = true).
  { destruct (missingInput_false _ M) as (_ & _ & _ & _ & _ & _ & _ & _ & A).
    now rewrite Hst. }
  destruct (handleUpload_started _ M St) as (f & uid & Hf & Hu & H).
  exists f, uid. split_and!; try assumption.
  unfold step, handle. rewrite H. simpl.
  unfold catalogEffect, depsChanged. simpl. now rewrite !Bool.eqb_reflx.
Qed.

Lemma step_StateChanged (w : world) (id : nat) (t : task) (a b : N) :
  tasks w !! id = Some t -> t_phase t = Uploading ->
  step appId initialAuthToken w (StateChanged id a b)
  = (with_ui (setUploadMessage
                ("Upload is " +:+ JS.toFixed0 (JS.percent a b) +:+ "% done")
                (setUploadProgress (JS.percent a b) (ui w))) w,
     [Delivered (StateChanged id a b)]).
Proof.
  intros L Ph. destruct t; simpl in Ph; subst.
  step_simpl L. reflexivity.
Qed.

Lemma run_progress (w : world) (id : nat) (t : task) (ps : list (N * N)) :
  tasks w !! id = Some t -> t_phase t = Uploading ->
  exists m p,
    run appId initialAuthToken w (progressEvents id ps)
    = (with_ui (setUploadMessage m (setUploadProgress p (ui w))) w,
       List.map Delivered (progressEvents id ps)).
Proof.
  intros L Ph. revert w L. induction ps as [|[a b] ps IH]; intros w L.
  - exists (uploadMessage (ui w)), (uploadProgress (ui w)).
    simpl. now destruct w as [[] ? ? ? ? ? ? ?].
  - simpl. rewrite (step_StateChanged w id t a b L Ph).
    destruct (IH (with_ui (setUploadMessage
                ("Upload is " +:+ JS.toFixed0 (JS.percent a b) +:+ "% done")
                (setUploadProgress (JS.percent a b) (ui w))) w) L)
      as (m & p & ->).
    now exists m, p.
Qed.

Lemma step_UploadFailed (w : world) (id : nat) (t : task) (message : string) :
  tasks w !! id = Some t -> t_phase t = Uploading ->
  step appId initialAuthToken w (UploadFailed id message)
  = (with_tasks (delete id (tasks w))
       (with_ui (setUploading false
                   (setUploadMessage ("Upload failed: " +:+ message) (ui w)))
          w),
     [Delivered (UploadFailed id message);
      Called (ConsoleError "Upload failed:" message)]).
Proof.
  intros L Ph. destruct t; simpl in Ph; subst.
  step_simpl L. reflexivity.
Qed.

Lemma step_UploadCompleted (w : world) (id : nat) (t : task) :
  tasks w !! id = Some t -> t_phase t = Uploading ->
  step appId initialAuthToken w (UploadCompleted id)
  = (with_tasks (<[id := in_phase ResolvingURL t]> (tasks w)) w,
     [Delivered (UploadCompleted id); Called (GetDownloadURL (t_ref t))]).
Proof.
  intros L Ph. destruct t; simpl in Ph; subst.
  step_simpl L. reflexivity.
Qed.

Lemma step_DownloadURL (w : world) (id : nat) (t : task) (url : string) :
  tasks w !! id = Some t -> t_phase t = ResolvingURL ->
  JS.present (t_db t) = true ->
  step appId initialAuthToken w (DownloadURLSettled id (inl url))
  = (with_tasks
       (<[id := in_phase (CommittingMetadata (recordOf t url)) t]> (tasks w))
       (with_ui (setUploadMessage "Upload successful. Saving package info..."
                   (ui w)) w),
     [Delivered (DownloadURLSettled id (inl url));
      Called (AddDoc (packagesCollection appId) (recordOf t url))]).
Proof.
  intros L Ph D. destruct t as [ph d ? ? ? ? ? ?]; simpl in Ph, D; subst.
  destruct d; [|discriminate].
  step_simpl L. reflexivity.
Qed.

Lemma step_AddDocResolved (w : world) (id : nat) (t : task)
    (r : PackageRecord.t) :
  tasks w !! id = Some t -> t_phase t = CommittingMetadata r ->
  step appId initialAuthToken w (AddDocSettled id None)
  = (with_committed (committed w ++ [r])
       (with_tasks (delete id (tasks w))
          (with_ui
             (finallyReset
                (clearForm
                   (setUploadMessage
                      "Package saved successfully! Your SPM program can now fetch it."
                      (ui w)))) w)),
     [Delivered (AddDocSettled id None); Called ClearFileInput]).
Proof.
  intros L Ph. destruct t; simpl in Ph; subst.
  step_simpl L. reflexivity.
Qed.

Lemma step_AddDocRejected (w : world) (id : nat) (t : task)
    (r : PackageRecord.t) (message : string) :
  tasks w !! id = Some t -> t_phase t = CommittingMetadata r ->
  step appId initialAuthToken w (AddDocSettled id (Some message))
  = (with_tasks (delete id (tasks w))
       (with_ui
          (finallyReset
             (setUploadMessage ("Failed to save package info: " +:+ message)
                (ui w))) w),
     [Delivered (AddDocSettled id (Some message));
      Called (ConsoleError "Error saving package info:" message)]).
Proof.
  intros L Ph. destruct t; simpl in Ph; subst.
  step_simpl L. reflexivity.
Qed.

Lemma metadataWrites_delivered (evs : list event) :
  metadataWrites (List.map Delivered evs) = [].
Proof. induction evs as [|e evs IH]; [reflexivity | exact IH]. Qed.

Lemma metadataWrites_app (l1 l2 : list entry) :
  metadataWrites (l1 ++ l2) = metadataWrites l1 ++ metadataWrites l2.
Proof. apply omap_app. Qed.

(** C7.  When [addDoc] rejects, after the upload succeeded: no record is
    committed and none reaches the local catalog, nothing further is
    written, the four form fields are as they were, the upload is over, and
    the message is [Failed to save package info: ...], which is never the
    message of a failed upload. *)
Theorem metadata_failure_keeps_form (w : world) (id : nat) (t : task)
    (r : PackageRecord.t) (message : string) :
  tasks w !! id = Some t ->
  t_phase t = CommittingMetadata r ->
  let w' := fst (step appId initialAuthToken w (AddDocSettled id (Some message))) in
  let log := snd (step appId initialAuthToken w (AddDocSettled id (Some message))) in
  committed w' = committed w
  /\ packages (ui w') = packages (ui w)
  /\ metadataWrites log = []
  /\ form (ui w') = form (ui w)
  /\ uploadMessage (ui w') = "Failed to save package info: " +:+ message
  /\ (forall m, uploadMessage (ui w') <> "Upload failed: " +:+ m)
  /\ tasks w' !! id = None.
Proof.
  intros L Ph. rewrite (step_AddDocRejected w id t r message L Ph). simpl.
  split_and!; try reflexivity.
  - intros m. discriminate.
  - apply lookup_delete_eq.
Qed.

(** A failed upload, with nothing but progress events in between and no
    restriction on how the submitting state was reached. *)
Lemma upload_failure_scenario (evs0 : list event) (ps : list (N * N))
    (message : string) :
  let w := fst (session appId initialAuthToken evs0) in
  let id := nextTask w in
  let evs := Submit :: progressEvents id ps ++ [UploadFailed id message] in
  let w' := fst (run appId initialAuthToken w evs) in
  let log := snd (run appId initialAuthToken w evs) in
  missingInput (ui w) = false ->
  form (ui w') = form (ui w)
  /\ metadataWrites log = []
  /\ committed w' = committed w
  /\ tasks w' = tasks w
  /\ uploading (ui w') = false
  /\ uploadMessage (ui w') = "Upload failed: " +:+ message.
Proof.
  intros w id evs w' log M.
  pose proof (session_consistent evs0) as C. fold w in C.
  destruct (step_Submit w C M) as (f & uid & Hf & Hu & S).
  subst w' log evs. simpl run. rewrite S.
  set (w1 := {| ui := started (ui w) |}).
  assert (L1 : tasks w1 !! id = Some (submitted appId (ui w) f uid))
    by apply lookup_insert_eq.
  rewrite run_app.
  destruct (run_progress w1 id _ ps L1 eq_refl) as (m & p & ->).
  set (w2 := with_ui _ w1).
  simpl run.
  rewrite (step_UploadFailed w2 id _ message L1 eq_refl). simpl.
  split_and!; try reflexivity.
  - rewrite metadataWrites_app. now rewrite metadataWrites_delivered.
  - apply delete_insert_id. destruct C as (_ & _ & _ & Ht).
    destruct (tasks w !! id) as [t|] eqn:E; [|exact E].
    destruct (Ht _ _ E) as (_ & _ & Hlt). unfold id in Hlt. lia.
Qed.

(** A successful publish, with nothing but progress events before the
    completion and no restriction on how the submitting state was
    reached. *)
Lemma publish_scenario (evs0 : list event) (ps : list (N * N))
    (downloadURL : string) :
  let w := fst (session appId initialAuthToken evs0) in
  let id := nextTask w in
  let evs :=
    Submit :: progressEvents id ps
      ++ [UploadCompleted id; DownloadURLSettled id (inl downloadURL);
          AddDocSettled id None] in
  let w' := fst (run appId initialAuthToken w evs) in
  let log := snd (run appId initialAuthToken w evs) in
  missingInput (ui w) = false ->
  exists f uid,
    packageFile (ui w) = Some f /\ userId (ui w) = Some uid
    /\ let r :=
         {| PackageRecord.name := JS.toLowerCase (packageName (ui w));
            PackageRecord.displayName := packageName (ui w);
            PackageRecord.description := packageDescription (ui w);
            PackageRecord.version := packageVersion (ui w);
            PackageRecord.fileName :=
              fileName_of (packageName (ui w)) (packageVersion (ui w))
                (file_name f);
            PackageRecord.fileUrl := downloadURL;
            PackageRecord.uploaderId := uid;
            PackageRecord.uploadTime := ServerTimestamp |} in
       form (ui w') = ("", "", "", None)
       /\ uploading (ui w') = false
       /\ uploadProgress (ui w') = JS.zero
       /\ metadataWrites log = [r]
       /\ committed w' = committed w ++ [r].
Proof.
  intros w id evs w' log M.
  pose proof (session_consistent evs0) as C. fold w in C.
  destruct (step_Submit w C M) as (f & uid & Hf & Hu & S).
  exists f, uid. split_and!; try assumption.
  subst w' log evs. simpl run. rewrite S.
  set (w1 := {| ui := started (ui w) |}).
  assert (L1 : tasks w1 !! id = Some (submitted appId (ui w) f uid))
    by apply lookup_insert_eq.
  rewrite run_app.
  destruct (run_progress w1 id _ ps L1 eq_refl) as (m & p & ->).
  set (w2 := with_ui _ w1).
  simpl run.
  rewrite (step_UploadCompleted w2 id _ L1 eq_refl).
  set (w3 := with_tasks _ w2).
  assert (L3 : tasks w3 !! id
               = Some (in_phase ResolvingURL (submitted appId (ui w) f uid)))
    by apply lookup_insert_eq.
  assert (D : JS.present (t_db (in_phase ResolvingURL
                                   (submitted appId (ui w) f uid))) = true).
  { simpl. destruct C as (Hdb & Hst & _).
    destruct (missingInput_false _ M) as (_ & _ & _ & _ & _ & _ & _ & _ & A).
    now rewrite Hdb. }
  rewrite (step_DownloadURL w3 id _ downloadURL L3 eq_refl D).
  set (w4 := with_tasks _ _).
  assert (L4 : tasks w4 !! id
               = Some (in_phase
                         (CommittingMetadata
                            (recordOf (in_phase ResolvingURL
                                         (submitted appId (ui w) f uid))
                               downloadURL))
                         (in_phase ResolvingURL
                            (submitted appId (ui w) f uid))))
    by apply lookup_insert_eq.
  rewrite (step_AddDocResolved w4 id _ _ L4 eq_refl). simpl.
  split_and!; try reflexivity.
  rewrite metadataWrites_app, metadataWrites_delivered. reflexivity.
Qed.
(** ** One publish at a time, through the form *)

Lemma handle_atMostOne (w w1 : world) (ev : event) (cs : list call) :
  atMostOne w ->
  (ev = Submit -> uploading (ui w) = false) ->
  handle appId initialAuthToken w ev = Some (w1, cs) ->
  atMostOne w1.
Proof.
  intros A U H. unfold atMostOne in *.
  destruct ev; handle_inv H; unfold task_in in *; simpl.
  all: try match goal with
       | L : handleUpload _ _ = (_, _, Some _) |- _ =>
           apply handleUpload_Some in L
             as (M & S & -> & f & uid & Hf & Hu' & -> & ->)
       | L : handleUpload _ _ = (_, _, None) |- _ =>
           apply handleUpload_None in L as (-> & [(M & ->)|(M & S & ->)])
       end.
  all: try specialize (U eq_refl).
  all: destruct A as [E|((id' & t' & E) & Up)].
  all: try match goal with
       | L : tasks _ !! _ = Some _ |- _ =>
           rewrite E in L;
           first [ rewrite lookup_empty in L; discriminate
                 | apply lookup_singleton_Some in L as (-> & ->) ]
       end.
  all: rewrite ?E, ?delete_singleton_eq, ?insert_singleton_eq, ?insert_empty.
  all: simpl; try (left; reflexivity); try congruence.
  all: try (right; split; [eexists _, _; reflexivity | first [exact Up | reflexivity]]).
Qed.

Lemma formStep_atMostOne (w : world) (ev : event) :
  atMostOne w -> atMostOne (fst (formStep appId initialAuthToken w ev)).
Proof.
  intros A. unfold formStep.
  destruct (fromForm ev && controlsDisabled (ui w)) eqn:D; [exact A|].
  destruct (step appId initialAuthToken w ev) as [w' log] eqn:S.
  apply step_inv in S as [(_ & -> & _)|(w1 & cs & cs' & H & E & _)];
    [exact A|].
  apply catalogEffect_frame in E as (-> & _). simpl.
  apply (handle_atMostOne w w1 ev cs A); [|exact H].
  intros ->. simpl in D. unfold controlsDisabled in D.
  now apply orb_false_elim in D as [D _].
Qed.

Lemma formRun_atMostOne (w : world) (evs : list event) :
  atMostOne w -> atMostOne (fst (formRun appId initialAuthToken w evs)).
Proof.
  revert w. induction evs as [|ev evs IH]; intros w A; simpl; [exact A|].
  pose proof (formStep_atMostOne w ev A) as A1.
  destruct (formStep appId initialAuthToken w ev) as [w1 log1].
  specialize (IH w1 A1).
  now destruct (formRun appId initialAuthToken w1 evs).
Qed.

(** C1, amended.  In a session whose form events come through the rendered
    form, an upload in flight (in any of its phases) is the only one, the
    [uploading] flag is set, and the form delivers neither a submit nor a
    change of an input: such an event leaves the world as it is and nothing
    is called. *)
Theorem form_exclusive (evs : list event) (id : nat) (t : task) (ev : event) :
  let w := fst (formRun appId initialAuthToken initial_world evs) in
  tasks w !! id = Some t ->
  fromForm ev = true ->
  tasks w = {[ id := t ]}
  /\ uploading (ui w) = true
  /\ formStep appId initialAuthToken w ev = (w, []).
Proof.
  intros w L F.
  assert (A : atMostOne w).
  { apply formRun_atMostOne. now left. }
  destruct A as [E|((id' & t' & E) & Up)].
  - rewrite E, lookup_empty in L. discriminate.
  - rewrite E in L. apply lookup_singleton_Some in L as (-> & ->).
    split_and!; try assumption.
    unfold formStep, controlsDisabled. now rewrite F, Up.
Qed.

(** ** The user id follows the auth callback *)

Lemma identities_calls (cs : list call) : identities (List.map Called cs) = [].
Proof. induction cs as [|c cs IH]; [reflexivity | exact IH]. Qed.

Lemma identities_app (l1 l2 : list entry) :
  identities (l1 ++ l2) = identities l1 ++ identities l2.
Proof. apply omap_app. Qed.

Lemma last_elem_of {A} (l : list A) (x : A) : last l = Some x -> x ∈ l.
Proof.
  intros H. apply last_Some in H as (l' & ->).
  apply elem_of_app. right. now left.
Qed.

Lemma tracked_extend (w : world) (log l : list entry) :
  tracked w log ->
  existsb readiness l = false -> identities l = [] -> metadataWrites l = [] ->
  tracked w (log ++ l).
Proof.
  intros (R & U & T & W) Hr Hi Hw. unfold tracked in *.
  rewrite existsb_app, Hr, orb_false_r, metadataWrites_app, Hw,
    identities_app, Hi, !app_nil_r.
  now split_and!.
Qed.

Lemma handle_tracked (w w1 : world) (ev : event) (cs : list call)
    (log : list entry) :
  tracked w log -> handle appId initialAuthToken w ev = Some (w1, cs) ->
  tracked w1 (log ++ Delivered ev :: List.map Called cs).
Proof.
  intros (R & U & T & W) H. unfold tracked.
  rewrite existsb_app, metadataWrites_app, identities_app.
  change (existsb readiness (Delivered ev :: List.map Called cs))
    with (readiness (Delivered ev) || existsb readiness (List.map Called cs)).
  change (identities (Delivered ev :: List.map Called cs))
    with (match carried (Delivered ev) with
          | Some u => u :: identities (List.map Called cs)
          | None => identities (List.map Called cs)
          end).
  change (metadataWrites (Delivered ev :: List.map Called cs))
    with (metadataWrites (List.map Called cs)).
  rewrite readiness_calls, identities_calls, orb_false_r.
  destruct ev; handle_inv H; unfold task_in in *; simpl.
  all: try match goal with
       | L : handleUpload _ _ = (_, _, Some _) |- _ =>
           apply handleUpload_Some in L
             as (M & S & -> & f & uid & Hf & Hu' & -> & ->)
       | L : handleUpload _ _ = (_, _, None) |- _ =>
           apply handleUpload_None in L as (-> & [(M & ->)|(M & S & ->)])
       end.
  all: simpl; rewrite ?orb_false_r, ?orb_true_r, ?app_nil_r, ?last_snoc.
  all: simpl in *; simplify_eq.
  all: split_and!; try assumption; try reflexivity.
  all: try match goal with
       | |- forall r, r ∈ _ -> _ =>
           intros r Hr; rewrite ?elem_of_app in *
       | |- forall id t, _ !! id = Some t -> _ =>
           intros id t L;
           first [ apply lookup_insert_Some in L as [(<- & <-)|(Hne & L)]
                 | apply lookup_delete_Some in L as (Hne & L)
                 | idtac ];
           try (destruct (T _ _ L) as (Ti & Tr));
           rewrite ?elem_of_app
       end.
  all: try solve [split; [tauto | assumption]].
  all: try solve [left; auto].
  - destruct Hr as [Hr|Hr]; [auto|].
    destruct n as [|[|[|n]]]; simpl in Hr; rewrite ?take_nil in Hr;
      simpl in Hr; inversion Hr.
  - destruct Hr as [Hr|Hr]; [auto|].
    unfold signInCall in Hr. destruct initialAuthToken as [tok|];
      [destruct (JS.truthy tok)|]; simpl in Hr; inversion Hr.
  - split; [|discriminate]. simpl. apply last_elem_of. congruence.
  - match goal with L : tasks w !! _ = Some _ |- _ =>
      destruct (T _ _ L) as (Ti & _) end.
    split; [exact Ti | discriminate].
  - match goal with L : tasks w !! _ = Some _ |- _ =>
      destruct (T _ _ L) as (Ti & _) end.
    split; [exact Ti|]. simpl. intros r Hr. now injection Hr as <-.
  - destruct Hr as [Hr|Hr]; [auto|].
    apply list_elem_of_singleton in Hr as ->. simpl.
    now destruct (T _ _ H0) as (Ti & _).
Qed.

Lemma step_tracked (w w' : world) (ev : event) (log l : list entry) :
  tracked w log -> step appId initialAuthToken w ev = (w', l) ->
  tracked w' (log ++ l).
Proof.
  intros K S.
  apply step_inv in S as [(_ & -> & ->)|(w1 & cs & cs' & H & E & ->)].
  - now rewrite app_nil_r.
  - pose proof (handle_tracked _ _ _ _ _ K H) as K1.
    apply catalogEffect_frame in E as (-> & E).
    rewrite map_app.
    change (Delivered ev :: List.map Called cs ++ List.map Called cs')
      with ((Delivered ev :: List.map Called cs) ++ List.map Called cs').
    rewrite app_assoc.
    apply (tracked_extend w1 _ (List.map Called cs') K1).
    + apply readiness_calls.
    + apply identities_calls.
    + destruct E as [->|[->|(_ & [->| ->])]]; reflexivity.
Qed.

Lemma run_tracked (w w' : world) (evs : list event) (log l : list entry) :
  tracked w log -> run appId initialAuthToken w evs = (w', l) ->
  tracked w' (log ++ l).
Proof.
  revert w log l. induction evs as [|ev evs IH]; intros w log l K R;
    simpl in R.
  - injection R as <- <-. now rewrite app_nil_r.
  - destruct (step appId initialAuthToken w ev) as [w1 l1] eqn:S.
    destruct (run appId initialAuthToken w1 evs) as [w2 l2] eqn:R2.
    injection R as <- <-. rewrite app_assoc.
    apply (IH w1 (log ++ l1) l2); [|exact R2].
    exact (step_tracked _ _ _ _ _ K S).
Qed.

Lemma initial_tracked : tracked initial_world [].
Proof.
  unfold tracked. simpl. split_and!; try reflexivity.
  - intros id t L. now rewrite lookup_empty in L.
  - intros r Hr. inversion Hr.
Qed.

(** C3, amended.  In any session: [isAuthReady] is set exactly when an
    auth-state callback has been delivered; the user id is the identity
    carried by the most recent callback (the user's uid, or the random
    string generated when the callback brings no user), so it changes when
    a later callback carries another identity and only then; the
    [uploaderId] of every record written is an identity some callback
    carried; and in a session with a single callback that one identity is
    the user id and the [uploaderId] of every record. *)
Theorem identity_follows_auth (evs : list event) :
  let w := fst (session appId initialAuthToken evs) in
  let log := snd (session appId initialAuthToken evs) in
  isAuthReady (ui w) = existsb readiness log
  /\ userId (ui w) = last (identities log)
  /\ (forall r, r ∈ metadataWrites log ->
        PackageRecord.uploaderId r ∈ identities log)
  /\ forall u, identities log = [u] ->
       userId (ui w) = Some u
       /\ forall r, r ∈ metadataWrites log -> PackageRecord.uploaderId r = u.
Proof.
  intros w log.
  assert (K : tracked w log).
  { subst w log. unfold session.
    destruct (run appId initialAuthToken initial_world evs) as [w l] eqn:R.
    exact (run_tracked _ _ _ _ _ initial_tracked R). }
  destruct K as (R & U & _ & W). split_and!; try assumption.
  intros u I. rewrite I in U, W. split; [exact U|].
  intros r Hr. specialize (W r Hr). now apply list_elem_of_singleton in W.
Qed.


(** ** An upload in flight, under any interleaving the form allows *)

Lemma handle_nextTask (w w1 : world) (ev : event) (cs : list call) :
  handle appId initialAuthToken w ev = Some (w1, cs) ->
  nextTask w <= nextTask w1.
Proof.
  intros H. destruct ev; handle_inv H; simpl; lia.
Qed.

Lemma handle_single (w w1 : world) (ev : event) (cs : list call)
    (id : nat) (t : task) :
  tasks w = {[ id := t ]} ->
  (fromForm ev = true -> False) ->
  handle appId initialAuthToken w ev = Some (w1, cs) ->
  (tasks w1 = tasks w /\ form (ui w1) = form (ui w)
   /\ committed w1 = committed w /\ metadataWrites (List.map Called cs) = [])
  \/ tasks w1 = ∅
  \/ (t_phase t = Uploading
      /\ tasks w1 = {[ id := in_phase ResolvingURL t ]}
      /\ form (ui w1) = form (ui w) /\ committed w1 = committed w
      /\ metadataWrites (List.map Called cs) = [])
  \/ (t_phase t = ResolvingURL
      /\ exists url,
           ev = DownloadURLSettled id (inl url)
           /\ tasks w1 = {[ id := in_phase (CommittingMetadata (recordOf t url)) t ]}
           /\ form (ui w1) = form (ui w) /\ committed w1 = committed w
           /\ metadataWrites (List.map Called cs) = [recordOf t url]).
Proof.
  intros E U H.
  destruct ev; try (exfalso; now apply U).
  all: handle_inv H; unfold task_in in *; simpl.
  all: try match goal with
       | L : tasks _ !! _ = Some _ |- _ =>
           rewrite E in L; apply lookup_singleton_Some in L as (-> & ->)
       end.
  all: rewrite ?E, ?delete_singleton_eq, ?insert_singleton_eq.
  all: try (right; left; reflexivity).
  all: try (left; split_and!; reflexivity).
  - left. split_and!; try reflexivity.
    destruct n as [|[|[|n]]]; simpl; rewrite ?take_nil; reflexivity.
  - left. split_and!; try reflexivity.
    unfold signInCall. destruct initialAuthToken as [tok|];
      [destruct (JS.truthy tok)|]; reflexivity.
  - right. right. left. split_and!; reflexivity.
  - right. right. right. split; [reflexivity|].
    eexists. split_and!; reflexivity.
Qed.

Lemma handle_inflight (id : nat) (tsub : task)
    (F : string * string * string * option File) (C : list PackageRecord.t)
    (w w1 : world) (ev : event) (cs : list call) (log : list entry) :
  inflight id tsub F C w log ->
  (fromForm ev = true -> uploading (ui w) = false) ->
  handle appId initialAuthToken w ev = Some (w1, cs) ->
  inflight id tsub F C w1 (log ++ Delivered ev :: List.map Called cs).
Proof.
  intros (A & N & I) U H. split_and!.
  - apply (handle_atMostOne w w1 ev cs A); [|exact H].
    intros ->. now apply U.
  - pose proof (handle_nextTask _ _ _ _ H). lia.
  - intros t1 L1. rewrite metadataWrites_app.
    change (metadataWrites (Delivered ev :: List.map Called cs))
      with (metadataWrites (List.map Called cs)).
    destruct A as [E|((id' & t' & E) & Up)].
    + exfalso.
      destruct ev; handle_inv H; unfold task_in in *; simpl in *.
      all: try match goal with
           | L : handleUpload _ _ = (_, _, Some _) |- _ =>
               apply handleUpload_Some in L
                 as (M & S & -> & f & uid & Hf & Hu' & -> & ->)
           | L : handleUpload _ _ = (_, _, None) |- _ =>
               apply handleUpload_None in L as (-> & [(M & ->)|(M & S & ->)])
           end.
      all: simpl in *; rewrite E in *.
      all: rewrite ?lookup_empty in *; try discriminate.
      rewrite lookup_insert_ne in L1 by lia.
      rewrite lookup_empty in L1. discriminate.
    + assert (B : fromForm ev = true -> False).
      { intros B. specialize (U B). congruence. }
      destruct (handle_single w w1 ev cs id' t' E B H)
        as [(Et & Ef & Ec & Ew)|[Et|[(P & Et & Ef & Ec & Ew)
                                    |(P & url & -> & Et & Ef & Ec & Ew)]]].
      * rewrite Et in L1. rewrite Ew, app_nil_r, Ef, Ec.
        destruct (I t1 L1) as (It & IF & IC & IW).
        split_and!; try assumption.
        destruct (t_phase t1); try assumption.
        destruct IW as (IW & url & Hr & Hin). split; [exact IW|].
        exists url. split; [exact Hr|]. apply in_or_app. now left.
      * rewrite Et, lookup_empty in L1. discriminate.
      * rewrite Et in L1. apply lookup_singleton_Some in L1 as (-> & <-).
        destruct (I t') as (It & IF & IC & IW);
          [rewrite E; apply lookup_singleton_eq|].
        rewrite P in IW. rewrite Ew, app_nil_r, Ef, Ec. simpl.
        split_and!; try assumption. rewrite It. reflexivity.
      * rewrite Et in L1. apply lookup_singleton_Some in L1 as (-> & <-).
        destruct (I t') as (It & IF & IC & IW);
          [rewrite E; apply lookup_singleton_eq|].
        rewrite P in IW. rewrite Ew, IW, Ef, Ec. simpl.
        split_and!; try assumption; try reflexivity.
        -- rewrite It. reflexivity.
        -- exists url. split; [rewrite It; reflexivity|].
           apply in_or_app. right. now left.
Qed.

Lemma inflight_extend (id : nat) (tsub : task)
    (F : string * string * string * option File) (C : list PackageRecord.t)
    (w : world) (b : bool) (log l : list entry) :
  inflight id tsub F C w log -> metadataWrites l = [] ->
  inflight id tsub F C (with_subscribed b w) (log ++ l).
Proof.
  intros (A & N & I) Hl. split_and!; [exact A | exact N |].
  intros t L. destruct (I t L) as (It & IF & IC & IW).
  split_and!; try assumption.
  rewrite metadataWrites_app, Hl, app_nil_r.
  destruct (t_phase t); try assumption.
  destruct IW as (IW & url & Hr & Hin). split; [exact IW|].
  exists url. split; [exact Hr|]. apply in_or_app. now left.
Qed.

Lemma formStep_inflight (id : nat) (tsub : task)
    (F : string * string * string * option File) (C : list PackageRecord.t)
    (w w' : world) (ev : event) (log l : list entry) :
  inflight id tsub F C w log ->
  formStep appId initialAuthToken w ev = (w', l) ->
  inflight id tsub F C w' (log ++ l).
Proof.
  intros K S. unfold formStep in S.
  destruct (fromForm ev && controlsDisabled (ui w)) eqn:D.
  - injection S as <- <-. now rewrite app_nil_r.
  - apply step_inv in S as [(_ & -> & ->)|(w1 & cs & cs' & H & E & ->)].
    + now rewrite app_nil_r.
    + assert (U : fromForm ev = true -> uploading (ui w) = false).
      { intros B. rewrite B in D. simpl in D. unfold controlsDisabled in D.
        now apply orb_false_elim in D as [D _]. }
      pose proof (handle_inflight _ _ _ _ _ _ _ _ _ K U H) as K1.
      apply catalogEffect_frame in E as (-> & E).
      rewrite map_app.
      change (Delivered ev :: List.map Called cs ++ List.map Called cs')
        with ((Delivered ev :: List.map Called cs) ++ List.map Called cs').
      rewrite app_assoc. apply inflight_extend; [exact K1|].
      destruct E as [->|[->|(_ & [->| ->])]]; reflexivity.
Qed.

Lemma formRun_inflight (id : nat) (tsub : task)
    (F : string * string * string * option File) (C : list PackageRecord.t)
    (w w' : world) (evs : list event) (log l : list entry) :
  inflight id tsub F C w log ->
  formRun appId initialAuthToken w evs = (w', l) ->
  inflight id tsub F C w' (log ++ l).
Proof.
  revert w log l. induction evs as [|ev evs IH]; intros w log l K R;
    simpl in R.
  - injection R as <- <-. now rewrite app_nil_r.
  - destruct (formStep appId initialAuthToken w ev) as [w1 l1] eqn:S.
    destruct (formRun appId initialAuthToken w1 evs) as [w2 l2] eqn:R2.
    injection R as <- <-. rewrite app_assoc.
    apply (IH w1 (log ++ l1) l2); [|exact R2].
    exact (formStep_inflight _ _ _ _ _ _ _ _ _ K S).
Qed.

Lemma formStep_consistent (w : world) (ev : event) :
  consistent w -> consistent (fst (formStep appId initialAuthToken w ev)).
Proof.
  intros C. unfold formStep.
  destruct (fromForm ev && controlsDisabled (ui w)); [exact C|].
  now apply step_consistent.
Qed.

Lemma formRun_consistent (w : world) (evs : list event) :
  consistent w -> consistent (fst (formRun appId initialAuthToken w evs)).
Proof.
  revert w. induction evs as [|ev evs IH]; intros w C; simpl; [exact C|].
  pose proof (formStep_consistent w ev C) as C1.
  destruct (formStep appId initialAuthToken w ev) as [w1 log1].
  specialize (IH w1 C1).
  now destruct (formRun appId initialAuthToken w1 evs).
Qed.

(** The submit of an enabled, complete form: the upload starts under the
    next identifier and is in flight. *)
Lemma submit_inflight (evs0 : list event) :
  let w0 := fst (formRun appId initialAuthToken initial_world evs0) in
  controlsDisabled (ui w0) = false ->
  missingInput (ui w0) = false ->
  exists f uid,
    packageFile (ui w0) = Some f /\ userId (ui w0) = Some uid
    /\ inflight (nextTask w0) (submitted appId (ui w0) f uid)
         (form (ui w0)) (committed w0)
         (fst (formStep appId initialAuthToken w0 Submit)) [].
Proof.
  intros w0 D M.
  assert (C : consistent w0) by apply formRun_consistent, initial_consistent.
  assert (A : atMostOne w0) by (apply formRun_atMostOne; now left).
  destruct (step_Submit w0 C M) as (f & uid & Hf & Hu & S).
  exists f, uid. split_and!; try assumption.
  unfold formStep. rewrite D. simpl. rewrite S. simpl.
  assert (E : tasks w0 = ∅).
  { destruct A as [E|(_ & Up)]; [exact E|].
    unfold controlsDisabled in D. apply orb_false_elim in D as [D _].
    congruence. }
  split_and!.
  - right. split; [|reflexivity]. simpl. rewrite E, insert_empty.
    now eexists _, _.
  - simpl. lia.
  - simpl. intros t L. rewrite lookup_insert_eq in L. injection L as <-.
    simpl. split_and!; reflexivity.
Qed.


Lemma formRun_app (w : world) (evs1 evs2 : list event) :
  formRun appId initialAuthToken w (evs1 ++ evs2)
  = let '(w1, log1) := formRun appId initialAuthToken w evs1 in
    let '(w2, log2) := formRun appId initialAuthToken w1 evs2 in
    (w2, log1 ++ log2).
Proof.
  revert w. induction evs1 as [|ev evs1 IH]; intros w; simpl.
  - now destruct (formRun appId initialAuthToken w evs2).
  - destruct (formStep appId initialAuthToken w ev) as [w1 log1].
    rewrite IH.
    destruct (formRun appId initialAuthToken w1 evs1) as [w2 log2].
    destruct (formRun appId initialAuthToken w2 evs2) as [w3 log3].
    now rewrite app_assoc.
Qed.

(** From the submit of an enabled, complete form, through any events the
    form allows, to a moment at which the upload is still in flight. *)
Lemma submitted_inflight (evs0 evs : list event) :
  let w0 := fst (formRun appId initialAuthToken initial_world evs0) in
  let mid := formRun appId initialAuthToken w0 (Submit :: evs) in
  controlsDisabled (ui w0) = false ->
  missingInput (ui w0) = false ->
  exists f uid,
    packageFile (ui w0) = Some f /\ userId (ui w0) = Some uid
    /\ inflight (nextTask w0) (submitted appId (ui w0) f uid)
         (form (ui w0)) (committed w0) (fst mid) (snd mid).
Proof.
  intros w0 mid D M.
  destruct (submit_inflight evs0 D M) as (f & uid & Hf & Hu & K).
  fold w0 in Hf, Hu, K. exists f, uid. split_and!; try assumption.
  subst mid. simpl.
  assert (W : metadataWrites (snd (formStep appId initialAuthToken w0 Submit))
              = []).
  { unfold formStep. rewrite D. simpl.
    assert (C : consistent w0)
      by apply formRun_consistent, initial_consistent.
    destruct (step_Submit w0 C M) as (f' & uid' & _ & _ & ->). reflexivity. }
  destruct (formStep appId initialAuthToken w0 Submit) as [w1 l1].
  simpl in K, W.
  destruct (formRun appId initialAuthToken w1 evs) as [w2 l2] eqn:R.
  simpl. pose proof (formRun_inflight _ _ _ _ _ _ _ _ _ K R) as K2.
  simpl in K2. destruct K2 as (A & N & I). split_and!; try assumption.
  intros t L. destruct (I t L) as (It & IF & IC & IW).
  split_and!; try assumption.
  rewrite metadataWrites_app, W. simpl.
  destruct (t_phase t); try assumption.
  destruct IW as (IW & url & Hr & Hin). split; [exact IW|].
  exists url. split; [exact Hr|]. apply in_or_app. now right.
Qed.

(** C8.  From a state a form-driven session reaches in which the form is
    enabled and [handleUpload] passes its guard: submit, then any events
    the form allows.  If the upload is then still running and its failure
    event arrives, name, description, version and file are what they were
    at submission, no metadata record was written or committed, no upload
    is left in flight, [uploading] is cleared and the failure is
    reported. *)
Theorem upload_failure_keeps_form (evs0 evs : list event) (t : task)
    (message : string) :
  let w0 := fst (formRun appId initialAuthToken initial_world evs0) in
  let id := nextTask w0 in
  let mid := formRun appId initialAuthToken w0 (Submit :: evs) in
  let fin :=
    formRun appId initialAuthToken w0
      (Submit :: evs ++ [UploadFailed id message]) in
  controlsDisabled (ui w0) = false ->
  missingInput (ui w0) = false ->
  tasks (fst mid) !! id = Some t ->
  t_phase t = Uploading ->
  form (ui (fst fin)) = form (ui w0)
  /\ metadataWrites (snd fin) = []
  /\ committed (fst fin) = committed w0
  /\ tasks (fst fin) = ∅
  /\ uploading (ui (fst fin)) = false
  /\ uploadMessage (ui (fst fin)) = "Upload failed: " +:+ message.
Proof.
  intros w0 id mid fin D M L P.
  destruct (submitted_inflight evs0 evs D M) as (f & uid & _ & _ & K).
  fold w0 mid id in K. destruct K as (A & _ & I).
  destruct (I t L) as (_ & IF & IC & IW). rewrite P in IW.
  assert (E : tasks (fst mid) = {[ id := t ]}).
  { destruct A as [E|((id' & t' & E) & _)].
    - rewrite E, lookup_empty in L. discriminate.
    - rewrite E in L. apply lookup_singleton_Some in L as (-> & ->).
      exact E. }
  subst fin.
  change (Submit :: evs ++ [UploadFailed id message])
    with ((Submit :: evs) ++ [UploadFailed id message]).
  rewrite formRun_app. fold mid.
  destruct mid as [w2 l2]. simpl in L, IF, IC, IW, E. simpl formRun.
  unfold formStep. simpl fromForm. simpl andb.
  rewrite (step_UploadFailed w2 id t message L P). simpl.
  rewrite metadataWrites_app, IW, E, delete_singleton_eq.
  split_and!; try assumption; reflexivity.
Qed.

Lemma formStep_tracked (w : world) (ev : event) (log : list entry) :
  tracked w log ->
  tracked (fst (formStep appId initialAuthToken w ev))
    (log ++ snd (formStep appId initialAuthToken w ev)).
Proof.
  intros K. unfold formStep.
  destruct (fromForm ev && controlsDisabled (ui w)).
  - simpl. now rewrite app_nil_r.
  - destruct (step appId initialAuthToken w ev) as [w' l] eqn:S.
    exact (step_tracked _ _ _ _ _ K S).
Qed.

Lemma formRun_tracked (w : world) (evs : list event) (log : list entry) :
  tracked w log ->
  tracked (fst (formRun appId initialAuthToken w evs))
    (log ++ snd (formRun appId initialAuthToken w evs)).
Proof.
  revert w log. induction evs as [|ev evs IH]; intros w log K; simpl.
  - now rewrite app_nil_r.
  - pose proof (formStep_tracked w ev log K) as K1.
    destruct (formStep appId initialAuthToken w ev) as [w1 l1].
    specialize (IH w1 (log ++ l1) K1).
    destruct (formRun appId initialAuthToken w1 evs) as [w2 l2].
    simpl in *. now rewrite app_assoc.
Qed.

(** C9, amended.  From a state a form-driven session reaches in which the
    form is enabled and [handleUpload] passes its guard: submit, then any
    events the form allows.  If [addDoc] is then pending with record [r]
    and it resolves, the form is cleared, [uploading] is [false] and the
    progress is zero; [r] is the only record written since the submit, in
    one [addDoc], and the one record committed; it carries the lowercased
    name, the name as typed, the description, the version, the derived
    file name, a download URL that was delivered for this upload, and as
    [uploaderId] the user id of the submitting state, which the callbacks
    of the upload closed over.  That is the user id at the time of the
    commit when no auth-state callback was delivered since the submit. *)
Theorem publish_success (evs0 evs : list event) (t : task)
    (r : PackageRecord.t) :
  let w0 := fst (formRun appId initialAuthToken initial_world evs0) in
  let id := nextTask w0 in
  let mid := formRun appId initialAuthToken w0 (Submit :: evs) in
  let fin :=
    formRun appId initialAuthToken w0
      (Submit :: evs ++ [AddDocSettled id None]) in
  controlsDisabled (ui w0) = false ->
  missingInput (ui w0) = false ->
  tasks (fst mid) !! id = Some t ->
  t_phase t = CommittingMetadata r ->
  exists f uid downloadURL,
    packageFile (ui w0) = Some f /\ userId (ui w0) = Some uid
    /\ In (Delivered (DownloadURLSettled id (inl downloadURL))) (snd mid)
    /\ r = {| PackageRecord.name := JS.toLowerCase (packageName (ui w0));
              PackageRecord.displayName := packageName (ui w0);
              PackageRecord.description := packageDescription (ui w0);
              PackageRecord.version := packageVersion (ui w0);
              PackageRecord.fileName :=
                fileName_of (packageName (ui w0)) (packageVersion (ui w0))
                  (file_name f);
              PackageRecord.fileUrl := downloadURL;
              PackageRecord.uploaderId := uid;
              PackageRecord.uploadTime := ServerTimestamp |}
    /\ form (ui (fst fin)) = ("", "", "", None)
    /\ uploading (ui (fst fin)) = false
    /\ uploadProgress (ui (fst fin)) = JS.zero
    /\ metadataWrites (snd fin) = [r]
    /\ committed (fst fin) = committed w0 ++ [r]
    /\ (identities (snd fin) = [] -> userId (ui (fst fin)) = Some uid).
Proof.
  intros w0 id mid fin D M L P.
  destruct (submitted_inflight evs0 evs D M) as (f & uid & Hf & Hu & K).
  fold w0 mid id in Hf, Hu, K. destruct K as (_ & _ & I).
  destruct (I t L) as (_ & IF & IC & IW). rewrite P in IW.
  destruct IW as (IW & url & Hr & Hin).
  exists f, uid, url.
  split; [exact Hf|]. split; [exact Hu|]. split; [exact Hin|].
  split; [exact Hr|]. clear Hin.
  assert (Id : identities (snd fin) = [] -> userId (ui (fst fin)) = Some uid).
  { intros Hi.
    pose proof (formRun_tracked initial_world evs0 [] initial_tracked) as K0.
    fold w0 in K0.
    pose proof (formRun_tracked w0 (Submit :: evs ++ [AddDocSettled id None])
                  _ K0) as Kf.
    fold fin in Kf. destruct K0 as (_ & U0 & _). destruct Kf as (_ & Uf & _).
    rewrite identities_app, Hi, app_nil_r in Uf. congruence. }
  cut (form (ui (fst fin)) = ("", "", "", None)
       /\ uploading (ui (fst fin)) = false
       /\ uploadProgress (ui (fst fin)) = JS.zero
       /\ metadataWrites (snd fin) = [r]
       /\ committed (fst fin) = committed w0 ++ [r]).
  { intros (H1 & H2 & H3 & H4 & H5). now split_and!. }
  clear Id. subst fin.
  change (Submit :: evs ++ [AddDocSettled id None])
    with ((Submit :: evs) ++ [AddDocSettled id None]).
  rewrite formRun_app. fold mid.
  destruct mid as [w2 l2]. simpl in L, IF, IC, IW. simpl formRun.
  unfold formStep. simpl fromForm. simpl andb.
  rewrite (step_AddDocResolved w2 id t r L P). cbn [fst snd].
  rewrite metadataWrites_app, IW. simpl. rewrite IC.
  split_and!; reflexivity.
Qed.

(** * Further properties of the code *)

(** ** The sanitized name and the stored name (lines 118, 145) *)

Lemma lower_conforming (c : ascii) : JS.conforming c = true -> JS.lower c = c.
Proof.
  destruct c as [[] [] [] [] [] [] [] []]; vm_compute; congruence.
Qed.

Lemma lower_idempotent (c : ascii) : JS.lower (JS.lower c) = JS.lower c.
Proof. destruct c as [[] [] [] [] [] [] [] []]; reflexivity. Qed.

Lemma strip_conforming (s : string) :
  forallb JS.conforming (list_ascii_of_string (JS.stripNonConforming s)) = true.
Proof.
  induction s as [|c s IH]; simpl; [reflexivity|].
  destruct (JS.conforming c) eqn:E; simpl; [now rewrite E|exact IH].
Qed.

Lemma strip_fixed (s : string) :
  forallb JS.conforming (list_ascii_of_string s) = true ->
  JS.stripNonConforming s = s.
Proof.
  induction s as [|c s IH]; simpl; [reflexivity|].
  intros H. apply andb_true_iff in H as [Hc Hs]. rewrite Hc.
  now rewrite (IH Hs).
Qed.

Lemma lower_fixed (s : string) :
  forallb JS.conforming (list_ascii_of_string s) = true ->
  JS.toLowerCase s = s.
Proof.
  induction s as [|c s IH]; simpl; [reflexivity|].
  intros H. apply andb_true_iff in H as [Hc Hs].
  now rewrite (lower_conforming c Hc), (IH Hs).
Qed.

Lemma sanitized_length (s : string) :
  String.length (sanitizedPackageName s) <= String.length s.
Proof.
  unfold sanitizedPackageName.
  induction s as [|c s IH]; simpl; [lia|].
  destruct (JS.conforming (JS.lower c)); simpl; lia.
Qed.

Lemma toLowerCase_idempotent (s : string) :
  JS.toLowerCase (JS.toLowerCase s) = JS.toLowerCase s.
Proof.
  induction s as [|c s IH]; simpl; [reflexivity|].
  now rewrite lower_idempotent, IH.
Qed.

(** X6.  The sanitized package name only holds characters of
    [[a-z0-9_.-]], is never longer than the name, and sanitizing it again
    changes nothing. *)
Theorem sanitized_canonical (name : string) :
  forallb JS.conforming (list_ascii_of_string (sanitizedPackageName name))
  = true
  /\ String.length (sanitizedPackageName name) <= String.length name
  /\ sanitizedPackageName (sanitizedPackageName name)
     = sanitizedPackageName name.
Proof.
  unfold sanitizedPackageName. split_and!.
  - apply strip_conforming.
  - fold (sanitizedPackageName name). apply sanitized_length.
  - rewrite (lower_fixed _ (strip_conforming _)).
    apply strip_fixed, strip_conforming.
Qed.

(** X9.  The name stored in a record, [packageName.toLowerCase()], is
    unchanged by lowercasing it again, sanitizes to what the name as typed
    sanitizes to, and gives the same file name as the typed name does: the
    [fileName] of a record can be computed again from its [name] and
    [version]. *)
Theorem stored_name_stable (name version file_name : string) :
  JS.toLowerCase (JS.toLowerCase name) = JS.toLowerCase name
  /\ sanitizedPackageName (JS.toLowerCase name) = sanitizedPackageName name
  /\ fileName_of (JS.toLowerCase name) version file_name
     = fileName_of name version file_name.
Proof.
  unfold fileName_of, sanitizedPackageName.
  rewrite toLowerCase_idempotent. now split_and!.
Qed.

(** ** The file extension (line 119) *)

Lemma hasDot_app (a b : string) : hasDot (a +:+ b) = hasDot a || hasDot b.
Proof.
  induction a as [|c a IH]; rewrite ?append_nil, ?append_cons; simpl;
    [reflexivity|].
  now rewrite IH, orb_assoc.
Qed.

Lemma fileExtension_app_dot (a e : string) :
  fileExtension (a +:+ "." +:+ e) = fileExtension e.
Proof.
  induction a as [|c a IH]; rewrite ?append_nil, ?append_cons.
  - now apply fileExtension_cons.
  - rewrite fileExtension_cons; [exact IH|].
    rewrite hasDot_app. simpl. now rewrite !orb_true_r.
Qed.

Lemma fileExtension_decompose (s : string) :
  hasDot (fileExtension s) = false
  /\ (hasDot s = false /\ fileExtension s = s
      \/ exists pre, s = pre +:+ "." +:+ fileExtension s).
Proof.
  induction s as [|c s (IHd & IH)].
  - split; [reflexivity|]. left. now split.
  - destruct (Ascii.eqb c ".") eqn:E.
    + apply Ascii.eqb_eq in E as ->.
      rewrite fileExtension_cons by reflexivity. split; [exact IHd|].
      right. destruct IH as [(D & F)|(pre & P)].
      * exists EmptyString. now rewrite F, append_nil.
      * exists (String "." pre). now rewrite append_cons, <- P.
    + destruct (hasDot s) eqn:D.
      * rewrite fileExtension_cons by (rewrite D; apply orb_true_r).
        split; [exact IHd|]. right.
        destruct IH as [(D' & _)|(pre & P)]; [congruence|].
        exists (String c pre). now rewrite append_cons, <- P.
      * assert (D' : hasDot (String c s) = false) by (simpl; now rewrite E, D).
        rewrite (fileExtension_nodot _ D'). split; [exact D'|]. left.
        now split.
Qed.

(** X8.  The extension is what follows the last dot: it holds no dot
    itself, the file name is either dot-free and its own extension or
    some prefix, a dot and the extension, and a name built as prefix, dot
    and a dot-free suffix has that suffix as its extension (the empty
    string when the name ends in a dot). *)
Theorem fileExtension_last_segment (s a e : string) :
  hasDot e = false ->
  fileExtension (a +:+ "." +:+ e) = e
  /\ hasDot (fileExtension s) = false
  /\ (hasDot s = false /\ fileExtension s = s
      \/ exists pre, s = pre +:+ "." +:+ fileExtension s).
Proof.
  intros D. split; [|apply fileExtension_decompose].
  rewrite fileExtension_app_dot. now apply fileExtension_nodot.
Qed.

(** ** The uploader shown on a card (line 279) *)

Lemma substring0_length (n : nat) (s : string) :
  String.length (View.substring0 n s) = Nat.min n (String.length s).
Proof.
  revert s. induction n as [|n IH]; intros [|c s]; simpl; try reflexivity.
  now rewrite IH.
Qed.

Lemma substring0_prefix (n : nat) (s : string) :
  exists rest, s = View.substring0 n s +:+ rest.
Proof.
  revert s. induction n as [|n IH]; intros s.
  - exists s. now destruct s.
  - destruct s as [|c s]; [now exists EmptyString|].
    destruct (IH s) as (rest & E). exists rest. simpl.
    now rewrite append_cons, <- E.
Qed.

Lemma append_length (a b : string) :
  String.length (a +:+ b) = String.length a + String.length b.
Proof.
  induction a as [|c a IH]; rewrite ?append_nil, ?append_cons; simpl;
    [reflexivity | now rewrite IH].
Qed.

(** X14.  The uploader text of a card is [N/A] exactly when the record has
    no (or an empty) uploader id; otherwise it is a prefix of the id, of
    its first eight characters at most, followed by three dots, so it is
    never longer than eleven characters. *)
Theorem uploaderText_shape (pkg : PackageRecord.t) :
  (View.uploaderText pkg = "N/A" <-> PackageRecord.uploaderId pkg = "")
  /\ String.length (View.uploaderText pkg) <= 11
  /\ (PackageRecord.uploaderId pkg <> "" ->
      exists shown rest,
        View.uploaderText pkg = shown +:+ "..."
        /\ PackageRecord.uploaderId pkg = shown +:+ rest
        /\ String.length shown
           = Nat.min 8 (String.length (PackageRecord.uploaderId pkg))).
Proof.
  unfold View.uploaderText.
  destruct (PackageRecord.uploaderId pkg) as [|c u] eqn:E.
  - simpl. split_and!; [tauto | lia | congruence].
  - cbn [JS.truthy]. split_and!.
    + split; [|discriminate]. intros H.
      apply (f_equal String.length) in H.
      rewrite append_length, substring0_length in H.
      change (String.length "...") with 3 in H.
      change (String.length "N/A") with 3 in H.
      change (String.length (String c u)) with (S (String.length u)) in H.
      lia.
    + rewrite append_length, substring0_length.
      change (String.length "...") with 3. lia.
    + intros _. destruct (substring0_prefix 8 (String c u)) as (rest & R).
      exists (View.substring0 8 (String c u)), rest.
      split_and!; [reflexivity | exact R | apply substring0_length].
Qed.

(** ** Progress (lines 127-131) *)

(** The number of binary digits of a significand. *)
Lemma digits2_pos_bounds (p : positive) :
  (2 ^ (Z.pos (digits2_pos p) - 1) <= Z.pos p < 2 ^ Z.pos (digits2_pos p))%Z.
Proof.
  induction p as [p IH|p IH|]; simpl digits2_pos; [| |simpl; lia].
  all: rewrite Pos2Z.inj_succ.
  all: replace (Z.succ (Z.pos (digits2_pos p)) - 1)%Z
         with (Z.pos (digits2_pos p)) by lia.
  all: rewrite Z.pow_succ_r by lia.
  all: assert (E : Z.pos (digits2_pos p)
                   = Z.succ (Z.pos (digits2_pos p) - 1)) by lia.
  all: rewrite E at 1; rewrite Z.pow_succ_r by lia; lia.
Qed.

Lemma digits2_iter_xO (p k : positive) :
  digits2_pos (Pos.iter xO p k) = (digits2_pos p + k)%positive.
Proof.
  induction k as [|k IH] using Pos.peano_ind.
  - simpl. lia.
  - rewrite Pos.iter_succ. simpl. rewrite IH. lia.
Qed.

Lemma fexp_normal (d e : Z) :
  d = 53%Z -> (-1074 <= e)%Z ->
  (fexp JS.prec JS.emax (d + e) - e = 0)%Z.
Proof. unfold fexp, emin, JS.prec, JS.emax. lia. Qed.

(** A significand of 53 bits with an exponent in range is a double as it
    stands: rounding leaves it alone. *)
Lemma binary_round_aux_exact (s : bool) (m : positive) (e : Z) :
  Z.pos (digits2_pos m) = 53%Z -> (-1074 <= e <= 971)%Z ->
  binary_round_aux JS.prec JS.emax s (Z.pos m) e loc_Exact
  = S754_finite s m e.
Proof.
  intros D [El Eu]. unfold binary_round_aux, shr_fexp.
  cbn [Zdigits2 shr_record_of_loc].
  rewrite (fexp_normal _ e D El).
  cbn [shr shr_m loc_of_shr_record round_nearest_even].
  cbn [Zdigits2 shr_record_of_loc].
  rewrite (fexp_normal _ e D El). cbn [shr shr_m].
  replace (e <=? JS.emax - JS.prec)%Z with true; [reflexivity|].
  symmetry. apply Z.leb_le. unfold JS.emax, JS.prec. lia.
Qed.

(** A byte count that is not zero and below 2^53 is a finite double that
    is not zero. *)
Lemma ofN_finite (n : N) :
  (0 < n < 2 ^ 53)%N -> exists m e, JS.ofN n = S754_finite false m e.
Proof.
  intros [Hp Hb]. destruct n as [|p]; [lia|].
  unfold JS.ofN. simpl Z.of_N. unfold binary_normalize, binary_round.
  pose proof (digits2_pos_bounds p) as [Dl Du].
  assert (Hd : (Z.pos (digits2_pos p) <= 53)%Z).
  { destruct (Z.le_gt_cases (Z.pos (digits2_pos p)) 53) as [H|H]; [exact H|].
    exfalso.
    assert (2 ^ 53 <= 2 ^ (Z.pos (digits2_pos p) - 1))%Z
      by (apply Z.pow_le_mono_r; lia).
    assert (Z.pos p < 2 ^ 53)%Z
      by (change (2 ^ 53)%Z with (Z.of_N (2 ^ 53)); lia).
    lia. }
  assert (F : fexp JS.prec JS.emax (Z.pos (digits2_pos p) + 0)
              = (Z.pos (digits2_pos p) - 53)%Z).
  { unfold fexp, emin, JS.prec, JS.emax. lia. }
  rewrite F. unfold shl_align.
  destruct (Z.pos (digits2_pos p) - 53 - 0)%Z as [|k|k] eqn:K; try lia.
  - eexists _, _. apply binary_round_aux_exact; lia.
  - eexists _, _. apply binary_round_aux_exact; [|lia].
    rewrite digits2_iter_xO. lia.
Qed.

(** A finite double that is not zero, divided by itself, is one. *)
Lemma SFdiv_self (s : bool) (m : positive) (e : Z) :
  SFdiv JS.prec JS.emax (S754_finite s m e) (S754_finite s m e)
  = JS.ofN 1.
Proof.
  unfold SFdiv, SFdiv_core_binary.
  replace (Zdigits2 (Z.pos m) + e - (Zdigits2 (Z.pos m) + e))%Z
    with 0%Z by lia.
  replace (e - e)%Z with 0%Z by lia.
  change (Z.min (fexp JS.prec JS.emax 0) 0) with (-53)%Z.
  change (0 - -53)%Z with 53%Z. cbv iota beta.
  rewrite Z.shiftl_mul_pow2 by lia.
  assert (D : Z.div_eucl (Z.pos m * 2 ^ 53) (Z.pos m) = (2 ^ 53, 0)%Z).
  { pose proof (Z.div_eucl_eq (Z.pos m * 2 ^ 53) (Z.pos m) ltac:(lia)) as E.
    pose proof (Z.mod_pos_bound (Z.pos m * 2 ^ 53) (Z.pos m) ltac:(lia)) as B.
    unfold Z.modulo in B.
    destruct (Z.div_eucl (Z.pos m * 2 ^ 53) (Z.pos m)) as [q r].
    assert (q = 2 ^ 53)%Z by nia. subst q. f_equal. lia. }
  rewrite D.
  assert (L : new_location (Z.pos m) 0 = loc_Exact).
  { unfold new_location, new_location_even, new_location_odd.
    now destruct (Z.even (Z.pos m)). }
  rewrite L. now destruct s.
Qed.

Lemma percent_complete (b : N) :
  (0 < b < 2 ^ 53)%N -> JS.percent b b = JS.ofN 100.
Proof.
  intros H. destruct (ofN_finite b H) as (m & e & E).
  unfold JS.percent. rewrite E, SFdiv_self. reflexivity.
Qed.

Lemma percent_nothing (b : N) :
  (0 < b < 2 ^ 53)%N -> JS.percent 0 b = JS.zero.
Proof.
  intros H. destruct (ofN_finite b H) as (m & e & E).
  unfold JS.percent. rewrite E. reflexivity.
Qed.

Lemma progressShown_running (w : world) (id : nat) (t : task) (a b : N) :
  tasks w !! id = Some t -> t_phase t = Uploading ->
  progressShown appId initialAuthToken w id a b
  = (JS.percent a b,
     "Upload is " +:+ JS.toFixed0 (JS.percent a b) +:+ "% done").
Proof.
  intros L P. unfold progressShown.
  now rewrite (step_StateChanged w id t a b L P).
Qed.

(** X13.  What the progress handler stores and shows for a running upload
    of [b] bytes, [b] not zero and below 2^53: with nothing transferred the
    progress is 0 and the message [Upload is 0% done]; with all [b] bytes
    transferred the progress is exactly 100 and the message
    [Upload is 100% done].  For an empty file (both counts zero) the
    progress is [NaN] and the message [Upload is NaN% done].  In between
    the value is the double the two roundings give: 29 of 200 bytes are
    stored as 14.499999999999998 and shown as 14%. *)
Theorem progress_endpoints (w : world) (id : nat) (t : task) (b : N) :
  tasks w !! id = Some t ->
  t_phase t = Uploading ->
  ((0 < b < 2 ^ 53)%N ->
   progressShown appId initialAuthToken w id 0 b
   = (JS.zero, "Upload is 0% done")
   /\ progressShown appId initialAuthToken w id b b
      = (JS.ofN 100, "Upload is 100% done"))
  /\ progressShown appId initialAuthToken w id 0 0
     = (JS.NaN, "Upload is NaN% done")
  /\ progressShown appId initialAuthToken w id 29 200
     = (S754_finite false 8162774324609023 (-49), "Upload is 14% done").
Proof.
  intros L P. rewrite !(progressShown_running w id t _ _ L P).
  split_and!; try reflexivity.
  intros Hb. rewrite (percent_nothing b Hb), (percent_complete b Hb).
  now split.
Qed.

(** ** The catalog subscription (lines 77-97) *)

Lemma subscriptionsOpened_app (l1 l2 : list entry) :
  subscriptionsOpened (l1 ++ l2)
  = subscriptionsOpened l1 ++ subscriptionsOpened l2.
Proof. apply omap_app. Qed.

Lemma handle_keeps_subscription (w w1 : world) (ev : event) (cs : list call) :
  handle appId initialAuthToken w ev = Some (w1, cs) ->
  subscribed w1 = subscribed w
  /\ (JS.present (db (ui w)) = true -> JS.present (db (ui w1)) = true)
  /\ (isAuthReady (ui w) = true -> isAuthReady (ui w1) = true)
  /\ subscriptionsOpened (Delivered ev :: List.map Called cs) = []
  /\ ~ In (Called Unsubscribe) (Delivered ev :: List.map Called cs).
Proof.
  intros H.
  destruct ev; handle_inv H; unfold task_in in *; simpl.
  all: try match goal with
       | L : handleUpload _ _ = (_, _, Some _) |- _ =>
           apply handleUpload_Some in L
             as (M & S & -> & f & uid & Hf & Hu' & -> & ->)
       | L : handleUpload _ _ = (_, _, None) |- _ =>
           apply handleUpload_None in L as (-> & [(M & ->)|(M & S & ->)])
       end.
  all: simpl; split_and!; try reflexivity; try tauto;
    try (intros [B|B]; [discriminate | tauto]);
    try (intros [B|[B|B]]; [discriminate | discriminate | tauto]).
  - destruct n as [|[|[|n]]]; simpl; rewrite ?take_nil; reflexivity.
  - destruct n as [|[|[|n]]]; simpl; rewrite ?take_nil; simpl;
      intuition discriminate.
  - unfold signInCall. destruct initialAuthToken as [tok|];
      [destruct (JS.truthy tok)|]; reflexivity.
  - unfold signInCall. destruct initialAuthToken as [tok|];
      [destruct (JS.truthy tok)|]; simpl; intuition discriminate.
Qed.

Lemma step_listening (w w' : world) (ev : event) (log l : list entry) :
  subscribed w = JS.present (db (ui w)) && isAuthReady (ui w) ->
  subscriptionsOpened log
  = (if subscribed w then [packagesCollection appId] else []) ->
  ~ In (Called Unsubscribe) log ->
  step appId initialAuthToken w ev = (w', l) ->
  subscribed w' = JS.present (db (ui w')) && isAuthReady (ui w')
  /\ subscriptionsOpened (log ++ l)
     = (if subscribed w' then [packagesCollection appId] else [])
  /\ ~ In (Called Unsubscribe) (log ++ l).
Proof.
  intros I1 I2 I3 S.
  apply step_inv in S as [(_ & -> & ->)|(w1 & cs & cs' & H & E & ->)].
  - rewrite app_nil_r. now split_and!.
  - destruct (handle_keeps_subscription _ _ _ _ H) as (Hs & Hd & Hr & Ho & Hu).
    rewrite map_app.
    change (Delivered ev :: List.map Called cs ++ List.map Called cs')
      with ((Delivered ev :: List.map Called cs) ++ List.map Called cs').
    rewrite !subscriptionsOpened_app, Ho, app_nil_l.
    assert (Hn : ~ In (Called Unsubscribe)
                   (log ++ Delivered ev :: List.map Called cs)).
    { intros B. apply in_app_or in B as [B|B]; tauto. }
    assert (Sb : subscribed w1
                 = JS.present (db (ui w)) && isAuthReady (ui w))
      by congruence.
    rewrite I1 in I2. clear I1 Hs.
    unfold catalogEffect, depsChanged in E. rewrite Sb in E.
    destruct (JS.present (db (ui w))) eqn:D0;
      destruct (isAuthReady (ui w)) eqn:R0;
      destruct (JS.present (db (ui w1))) eqn:D1;
      destruct (isAuthReady (ui w1)) eqn:R1;
      try (specialize (Hd eq_refl); discriminate);
      try (specialize (Hr eq_refl); discriminate);
      simpl in E, I2, Sb; injection E as <- <-; simpl;
      rewrite ?D1, ?R1, ?Sb, ?I2, ?app_nil_r; simpl;
      split_and!; try reflexivity; try assumption;
      rewrite app_comm_cons, app_assoc;
      intros B; apply in_app_or in B as [B|B];
      solve [tauto | simpl in B; intuition discriminate].
Qed.

(** X1.  In every session the catalog subscription is open exactly when
    the database handle is set and readiness has fired; [onSnapshot] has
    then been called once, on the packages collection, and not at all
    before; and the subscription is never torn down while the component is
    mounted. *)
Theorem subscription_once (evs : list event) :
  let w := fst (session appId initialAuthToken evs) in
  let log := snd (session appId initialAuthToken evs) in
  subscribed w = JS.present (db (ui w)) && isAuthReady (ui w)
  /\ subscriptionsOpened log
     = (if subscribed w then [packagesCollection appId] else [])
  /\ ~ In (Called Unsubscribe) log.
Proof.
  unfold session.
  assert (G : forall evs w log w' l,
             subscribed w = JS.present (db (ui w)) && isAuthReady (ui w) ->
             subscriptionsOpened log
             = (if subscribed w then [packagesCollection appId] else []) ->
             ~ In (Called Unsubscribe) log ->
             run appId initialAuthToken w evs = (w', l) ->
             subscribed w' = JS.present (db (ui w')) && isAuthReady (ui w')
             /\ subscriptionsOpened (log ++ l)
                = (if subscribed w' then [packagesCollection appId] else [])
             /\ ~ In (Called Unsubscribe) (log ++ l)).
  { clear evs. induction evs as [|ev evs IH]; intros w log w' l I1 I2 I3 R;
      simpl in R.
    - injection R as <- <-. rewrite app_nil_r. now split_and!.
    - destruct (step appId initialAuthToken w ev) as [w1 l1] eqn:S.
      destruct (run appId initialAuthToken w1 evs) as [w2 l2] eqn:R2.
      injection R as <- <-. rewrite app_assoc.
      destruct (step_listening _ _ _ _ _ I1 I2 I3 S) as (J1 & J2 & J3).
      exact (IH _ _ _ _ J1 J2 J3 R2). }
  destruct (run appId initialAuthToken initial_world evs) as [w l] eqn:R.
  apply (G evs initial_world [] w l); try reflexivity; [|exact R].
  intros [].
Qed.

(** ** The local catalog (lines 84-89) *)

Lemma snapshots_app (l1 l2 : list entry) :
  snapshots (l1 ++ l2) = snapshots l1 ++ snapshots l2.
Proof. apply omap_app. Qed.

Lemma snapshots_calls (cs : list call) : snapshots (List.map Called cs) = [].
Proof. induction cs as [|c cs IH]; [reflexivity | exact IH]. Qed.

Lemma handle_packages (w w1 : world) (ev : event) (cs : list call) :
  handle appId initialAuthToken w ev = Some (w1, cs) ->
  (exists docs, ev = Snapshot docs /\ packages (ui w1) = docs)
  \/ (snapshots [Delivered ev] = [] /\ packages (ui w1) = packages (ui w)).
Proof.
  intros H.
  destruct ev; handle_inv H; unfold task_in in *; simpl.
  all: try match goal with
       | L : handleUpload _ _ = (_, _, Some _) |- _ =>
           apply handleUpload_Some in L
             as (M & S & -> & f & uid & Hf & Hu' & -> & ->)
       | L : handleUpload _ _ = (_, _, None) |- _ =>
           apply handleUpload_None in L as (-> & [(M & ->)|(M & S & ->)])
       end.
  all: try (right; split; reflexivity).
  left. now eexists.
Qed.

Lemma step_packages (w w' : world) (ev : event) (log l : list entry) :
  packages (ui w) = default [] (last (snapshots log)) ->
  step appId initialAuthToken w ev = (w', l) ->
  packages (ui w') = default [] (last (snapshots (log ++ l))).
Proof.
  intros I S.
  apply step_inv in S as [(_ & -> & ->)|(w1 & cs & cs' & H & E & ->)].
  - now rewrite app_nil_r.
  - apply catalogEffect_frame in E as (-> & _). simpl ui.
    change (Delivered ev :: List.map Called (cs ++ cs'))
      with ([Delivered ev] ++ List.map Called (cs ++ cs')).
    rewrite !snapshots_app, snapshots_calls, app_nil_r.
    destruct (handle_packages _ _ _ _ H) as [(docs & -> & ->)|(-> & ->)].
    + simpl. now rewrite last_snoc.
    + now rewrite app_nil_r.
Qed.

(** X2.  In every session the local catalog is the list delivered by the
    most recent snapshot, whole, and is empty before the first one: no
    other callback, a publish included, touches it. *)
Theorem packages_last_snapshot (evs : list event) :
  packages (ui (fst (session appId initialAuthToken evs)))
  = default [] (last (snapshots (snd (session appId initialAuthToken evs)))).
Proof.
  unfold session.
  assert (G : forall evs w log w' l,
             packages (ui w) = default [] (last (snapshots log)) ->
             run appId initialAuthToken w evs = (w', l) ->
             packages (ui w') = default [] (last (snapshots (log ++ l)))).
  { clear evs. induction evs as [|ev evs IH]; intros w log w' l I R;
      simpl in R.
    - injection R as <- <-. now rewrite app_nil_r.
    - destruct (step appId initialAuthToken w ev) as [w1 l1] eqn:S.
      destruct (run appId initialAuthToken w1 evs) as [w2 l2] eqn:R2.
      injection R as <- <-. rewrite app_assoc.
      exact (IH _ _ _ _ (step_packages _ _ _ _ _ I S) R2). }
  destruct (run appId initialAuthToken initial_world evs) as [w l] eqn:R.
  exact (G evs initial_world [] w l eq_refl R).
Qed.

(** ** Who changes the form (lines 99-103, 157-160, 202-240) *)

(** X15.  The four form fields are changed only by the handlers of the
    form's inputs and by the success branch of the completion callback:
    a submit, whether it is rejected or starts an upload, and every other
    callback, the two failure paths included, leave name, description,
    version and file as they are. *)
Theorem form_frame (w : world) (ev : event) :
  ev = Submit \/ fromForm ev = false ->
  (forall id, ev <> AddDocSettled id None) ->
  form (ui (fst (step appId initialAuthToken w ev))) = form (ui w).
Proof.
  intros F N.
  destruct (step appId initialAuthToken w ev) as [w' l] eqn:S.
  apply step_inv in S as [(_ & -> & _)|(w1 & cs & cs' & H & E & _)];
    [reflexivity|].
  apply catalogEffect_frame in E as (-> & _). simpl.
  destruct ev; try (destruct F as [F|F]; discriminate).
  all: handle_inv H; unfold task_in in *; simpl; try reflexivity.
  all: try match goal with
       | L : handleUpload _ _ = (_, _, Some _) |- _ =>
           apply handleUpload_Some in L
             as (M & S & -> & f & uid & Hf & Hu' & -> & ->)
       | L : handleUpload _ _ = (_, _, None) |- _ =>
           apply handleUpload_None in L as (-> & [(M & ->)|(M & S & ->)])
       end.
  all: try reflexivity.
  exfalso. now apply (N task0).
Qed.

(** ** A mount effect that throws (lines 32-74) *)

Lemma handle_inert (w w1 : world) (ev : event) (cs : list call) :
  inert w -> handle appId initialAuthToken w ev = Some (w1, cs) ->
  inert w1 /\ forallb (fun c => negb (storeOp c)) cs = true.
Proof.
  intros (Im & Il & Is & Ib & It & Id & Ia & Ist & Iu & Ir) H.
  unfold inert.
  destruct ev; simpl in H; unfold task_in in H;
    rewrite ?Im, ?Il, ?Is, ?Ib, ?It, ?lookup_empty in H; try discriminate.
  all: try (injection H as <- <-; simpl; now split_and!).
  - destruct file; injection H as <- <-; simpl; now split_and!.
  - unfold handleUpload, missingInput in H. rewrite Ia in H. simpl in H.
    rewrite !orb_true_r in H. simpl in H.
    injection H as <- <-. simpl. now split_and!.
Qed.

Lemma run_inert (w w' : world) (evs : list event) (l : list entry) :
  inert w -> run appId initialAuthToken w evs = (w', l) ->
  inert w' /\ forall c, In (Called c) l -> storeOp c = false.
Proof.
  revert w w' l. induction evs as [|ev evs IH]; intros w w' l I R;
    simpl in R.
  - injection R as <- <-. split; [exact I | intros c []].
  - destruct (step appId initialAuthToken w ev) as [w1 l1] eqn:S.
    destruct (run appId initialAuthToken w1 evs) as [w2 l2] eqn:R2.
    injection R as <- <-.
    apply step_inv in S as [(_ & -> & ->)|(w0 & cs & cs' & H & E & ->)].
    + exact (IH _ _ _ I R2).
    + destruct (handle_inert _ _ _ _ I H) as (I0 & G).
      assert (E' : w1 = w0 /\ cs' = []).
      { destruct I as (_ & _ & _ & _ & _ & Id & _ & _ & _ & Ir).
        destruct I0 as (_ & _ & _ & _ & _ & Id0 & _ & _ & _ & Ir0).
        unfold catalogEffect, depsChanged in E.
        rewrite Id, Id0, Ir, Ir0 in E. simpl in E.
        now injection E as <- <-. }
      destruct E' as (-> & ->). rewrite app_nil_r.
      destruct (IH _ _ _ I0 R2) as (I2 & G2). split; [exact I2|].
      intros c B. apply in_app_or in B as [[B|B]|B].
      * discriminate.
      * apply in_map_iff in B as (c' & Ec & B). injection Ec as ->.
        rewrite forallb_forall in G. specialize (G c B).
        now apply negb_true_iff in G.
      * now apply G2.
Qed.

Lemma run_cons (w : world) (ev : event) (evs : list event) :
  run appId initialAuthToken w (ev :: evs)
  = let '(w1, log1) := step appId initialAuthToken w ev in
    let '(w2, log2) := run appId initialAuthToken w1 evs in
    (w2, log1 ++ log2).
Proof. reflexivity. Qed.

Lemma step_mount_failed (k : nat) (message : string) :
  step appId initialAuthToken initial_world (Mount (Some (k, message)))
  = (with_ui (setUploadMessage ("Firebase init error: " +:+ message)
                initial_state)
       {| ui := initial_state; mounted := true; authListener := false;
          signingIn := false; subscribed := false; tasks := ∅;
          nextTask := 0; committed := [] |},
     Delivered (Mount (Some (k, message)))
     :: List.map Called
          (take (S k) initCalls
             ++ [ConsoleError "Failed to initialize Firebase:" message])).
Proof.
  unfold step, handle. cbn [mounted initial_world].
  unfold catalogEffect, depsChanged. simpl. now rewrite app_nil_r.
Qed.

(** X3.  When the mount effect throws, the component stays unready for the
    rest of the session: [isAuthReady] is never set, no user id is ever
    there, no store call is ever made, and every submit stops at the
    guard. *)
Theorem failed_init_inert (k : nat) (message : string) (evs : list event) :
  let w := fst (session appId initialAuthToken
                  (Mount (Some (k, message)) :: evs)) in
  let log := snd (session appId initialAuthToken
                    (Mount (Some (k, message)) :: evs)) in
  isAuthReady (ui w) = false
  /\ userId (ui w) = None
  /\ (forall c, In (Called c) log -> storeOp c = false)
  /\ handleUpload appId (ui w) = (setUploadMessage fillAllFields (ui w), [], None).
Proof.
  unfold session. rewrite run_cons, step_mount_failed.
  set (w0 := with_ui _ _).
  set (l0 := Delivered (Mount (Some (k, message))) :: _).
  assert (I0 : inert w0) by (unfold inert; simpl; now split_and!).
  assert (G0 : forall c, In (Called c) l0 -> storeOp c = false).
  { intros c [B|B]; [discriminate|]. subst l0.
    apply in_map_iff in B as (c' & Ec & B).
    injection Ec as ->. apply in_app_or in B as [B|B].
    - assert (B' : In c initCalls).
      { revert B. generalize (S k), initCalls. intros n l. revert n.
        induction l as [|x l IH]; intros [|n]; simpl; try tauto.
        intros [->|B]; [now left | right; eauto]. }
      simpl in B'. intuition (subst; reflexivity).
    - simpl in B. destruct B as [<-|[]]. reflexivity. }
  destruct (run appId initialAuthToken w0 evs) as [w l] eqn:R.
  destruct (run_inert _ _ _ _ I0 R) as (I & G). cbn [fst snd].
  destruct I as (_ & _ & _ & _ & _ & _ & Ia & _ & Iu & Ir).
  split_and!; try assumption.
  - intros c B. apply in_app_or in B as [B|B]; [now apply G0 | now apply G].
  - unfold handleUpload, missingInput. rewrite Ia. simpl.
    now rewrite !orb_true_r.
Qed.

(** ** The [uploading] flag (lines 112, 135, 168, 252) *)

Lemma singleton_not_empty (id : nat) (t : task) :
  ({[ id := t ]} : gmap nat task) <> ∅.
Proof. apply insert_non_empty. Qed.

Lemma handle_idle (w w1 : world) (ev : event) (cs : list call) :
  consistent w -> atMostOne w ->
  (tasks w = ∅ -> uploading (ui w) = false) ->
  handle appId initialAuthToken w ev = Some (w1, cs) ->
  tasks w1 = ∅ -> uploading (ui w1) = false.
Proof.
  intros (Hdb & Hst & _) A I H.
  destruct ev; handle_inv H; unfold task_in in *; simpl.
  all: try match goal with
       | L : handleUpload _ _ = (_, _, Some _) |- _ =>
           apply handleUpload_Some in L
             as (M & S & -> & f & uid & Hf & Hu' & -> & ->)
       | L : handleUpload _ _ = (_, _, None) |- _ =>
           apply handleUpload_None in L as (-> & [(M & ->)|(M & S & ->)])
       end.
  all: simpl; try exact I; try reflexivity.
  all: try (intros B; now apply insert_non_empty in B).
  destruct (missingInput_false _ M) as (_ & _ & _ & _ & _ & _ & _ & _ & Au).
  congruence.
Qed.

Lemma formStep_idle (w : world) (ev : event) :
  consistent w -> atMostOne w ->
  (tasks w = ∅ -> uploading (ui w) = false) ->
  tasks (fst (formStep appId initialAuthToken w ev)) = ∅ ->
  uploading (ui (fst (formStep appId initialAuthToken w ev))) = false.
Proof.
  intros C A I. unfold formStep.
  destruct (fromForm ev && controlsDisabled (ui w)); [exact I|].
  destruct (step appId initialAuthToken w ev) as [w' l] eqn:S.
  apply step_inv in S as [(_ & -> & _)|(w1 & cs & cs' & H & E & _)];
    [exact I|].
  apply catalogEffect_frame in E as (-> & _). simpl.
  exact (handle_idle _ _ _ _ C A I H).
Qed.

(** X10.  In a session whose form events come through the rendered form,
    the [uploading] flag is set exactly while an upload is in flight, and
    then there is one upload only.  So the controls of the form are
    enabled exactly when [isAuthReady] is set and nothing is in flight:
    they are never enabled while an upload runs, and they are disabled
    with nothing in flight only while [isAuthReady] is not set. *)
Theorem uploading_iff_inflight (evs : list event) :
  let w := fst (formRun appId initialAuthToken initial_world evs) in
  (uploading (ui w) = false <-> tasks w = ∅)
  /\ (uploading (ui w) = true <-> exists id t, tasks w = {[ id := t ]})
  /\ (controlsDisabled (ui w) = false
      <-> isAuthReady (ui w) = true /\ tasks w = ∅)
  /\ (controlsDisabled (ui w) = true
      <-> isAuthReady (ui w) = false \/ exists id t, tasks w = {[ id := t ]}).
Proof.
  intros w.
  assert (G : forall evs w0,
             consistent w0 -> atMostOne w0 ->
             (tasks w0 = ∅ -> uploading (ui w0) = false) ->
             let w1 := fst (formRun appId initialAuthToken w0 evs) in
             tasks w1 = ∅ -> uploading (ui w1) = false).
  { clear. induction evs as [|ev evs IH]; intros w0 C A I; simpl;
      [exact I|].
    pose proof (formStep_consistent w0 ev C) as C1.
    pose proof (formStep_atMostOne w0 ev A) as A1.
    pose proof (formStep_idle w0 ev C A I) as I1.
    destruct (formStep appId initialAuthToken w0 ev) as [w1 l1].
    specialize (IH w1 C1 A1 I1). simpl in IH.
    now destruct (formRun appId initialAuthToken w1 evs). }
  assert (I : tasks w = ∅ -> uploading (ui w) = false).
  { apply (G evs initial_world initial_consistent); [now left | reflexivity]. }
  assert (A : atMostOne w) by (apply formRun_atMostOne; now left).
  assert (U0 : uploading (ui w) = false <-> tasks w = ∅).
  { split; [|exact I].
    intros U. destruct A as [E|(_ & Up)]; [exact E | congruence]. }
  assert (U1 : uploading (ui w) = true <-> exists id t, tasks w = {[ id := t ]}).
  { split.
    - intros U. destruct A as [E|(S & _)]; [|exact S].
      rewrite (I E) in U. discriminate.
    - intros (id & t & E). destruct A as [E'|(_ & Up)]; [|exact Up].
      rewrite E in E'. now apply singleton_not_empty in E'. }
  split; [exact U0|]. split; [exact U1|].
  unfold controlsDisabled. rewrite orb_false_iff, orb_true_iff.
  rewrite negb_false_iff, negb_true_iff, U0, U1. tauto.
Qed.

(** ** Submitting again (lines 105-123, 132-136, 157-170) *)

Lemma step_DownloadURL_rejected (w : world) (id : nat) (t : task)
    (message : string) :
  tasks w !! id = Some t -> t_phase t = ResolvingURL ->
  step appId initialAuthToken w (DownloadURLSettled id (inr message))
  = (with_tasks (delete id (tasks w))
       (with_ui
          (finallyReset
             (setUploadMessage ("Failed to save package info: " +:+ message)
                (ui w))) w),
     [Delivered (DownloadURLSettled id (inr message));
      Called (ConsoleError "Error saving package info:" message)]).
Proof.
  intros L Ph. destruct t; simpl in Ph; subst.
  step_simpl L. reflexivity.
Qed.

Lemma missingInput_frame (s s' : state) :
  form s' = form s -> auth s' = auth s -> userId s' = userId s ->
  missingInput s' = missingInput s.
Proof.
  unfold form, missingInput. intros F A U. injection F as -> -> -> ->.
  now rewrite A, U.
Qed.

(** The step that ends a publish in failure: the upload is gone, the
    [uploading] flag is cleared, and of the React state only that flag, the
    progress and the message have changed. *)
Lemma step_failure (w : world) (id : nat) (t : task) (fl : failure) :
  tasks w !! id = Some t -> awaited fl (t_phase t) = true ->
  exists s' l,
    step appId initialAuthToken w (failureEvent id fl)
    = (with_tasks (delete id (tasks w)) (with_ui s' w), l)
    /\ form s' = form (ui w) /\ uploading s' = false
    /\ isAuthReady s' = isAuthReady (ui w) /\ auth s' = auth (ui w)
    /\ userId s' = userId (ui w).
Proof.
  intros L P.
  destruct fl as [message|message|message]; destruct (t_phase t) as [| |r] eqn:Ph;
    try discriminate; simpl failureEvent.
  - rewrite (step_UploadFailed w id t message L Ph).
    eexists _, _. split; [reflexivity|]. now split_and!.
  - rewrite (step_DownloadURL_rejected w id t message L Ph).
    eexists _, _. split; [reflexivity|]. now split_and!.
  - rewrite (step_AddDocRejected w id t r message L Ph).
    eexists _, _. split; [reflexivity|]. now split_and!.
Qed.

Lemma handle_keeps_auth (w w1 : world) (ev : event) (cs : list call) :
  handle appId initialAuthToken w ev = Some (w1, cs) ->
  JS.present (auth (ui w)) = true -> JS.present (auth (ui w1)) = true.
Proof.
  intros H A.
  destruct ev; handle_inv H; unfold task_in in *; simpl.
  all: try match goal with
       | L : handleUpload _ _ = (_, _, Some _) |- _ =>
           apply handleUpload_Some in L
             as (M & S & -> & f & uid & Hf & Hu' & -> & ->)
       | L : handleUpload _ _ = (_, _, None) |- _ =>
           apply handleUpload_None in L as (-> & [(M & ->)|(M & S & ->)])
       end.
  all: solve [exact A | reflexivity].
Qed.

Lemma formRun_keeps_auth (w : world) (evs : list event) :
  JS.present (auth (ui w)) = true ->
  JS.present (auth (ui (fst (formRun appId initialAuthToken w evs)))) = true.
Proof.
  revert w. induction evs as [|ev evs IH]; intros w A; simpl; [exact A|].
  assert (A1 : JS.present
                 (auth (ui (fst (formStep appId initialAuthToken w ev))))
               = true).
  { unfold formStep.
    destruct (fromForm ev && controlsDisabled (ui w)); [exact A|].
    destruct (step appId initialAuthToken w ev) as [w' l] eqn:S.
    apply step_inv in S as [(_ & -> & _)|(w1 & cs & cs' & H & E & _)];
      [exact A|].
    apply catalogEffect_frame in E as (-> & _). simpl.
    exact (handle_keeps_auth _ _ _ _ H A). }
  destruct (formStep appId initialAuthToken w ev) as [w1 l1].
  specialize (IH w1 A1).
  now destruct (formRun appId initialAuthToken w1 evs).
Qed.

(** A submit through the enabled form, with the four fields filled in and
    the handles set: the upload starts when the user id is not empty, and
    nothing is uploaded when it is. *)
Lemma formStep_resubmit (w : world) (f : File) :
  consistent w -> controlsDisabled (ui w) = false ->
  JS.present (auth (ui w)) = true ->
  packageFile (ui w) = Some f ->
  JS.truthy (packageName (ui w)) = true ->
  JS.truthy (packageDescription (ui w)) = true ->
  JS.truthy (packageVersion (ui w)) = true ->
  uploadsStarted (snd (formStep appId initialAuthToken w Submit))
  = if JS.truthy_opt (userId (ui w))
    then [(storagePath appId
             (fileName_of (packageName (ui w)) (packageVersion (ui w))
                (file_name f)), f)]
    else [].
Proof.
  intros C D A Hf Hn Hd Hv.
  assert (M : missingInput (ui w) = negb (JS.truthy_opt (userId (ui w)))).
  { unfold missingInput. now rewrite Hf, Hn, Hd, Hv, A. }
  unfold formStep. rewrite D, andb_false_r.
  destruct (JS.truthy_opt (userId (ui w))) eqn:U; simpl in M.
  - destruct (step_Submit w C M) as (f' & uid & Hf' & _ & ->).
    rewrite Hf in Hf'. now injection Hf' as <-.
  - unfold step, handle, handleUpload. rewrite M. simpl.
    unfold catalogEffect, depsChanged. simpl. now rewrite !Bool.eqb_reflx.
Qed.

(** X11.  From a state a form-driven session reaches in which the form is
    enabled and [handleUpload] passes its guard: submit, then any events
    the form allows.  If the publish then fails because the upload reports
    an error while it runs, or [getDownloadURL] rejects, or [addDoc]
    rejects, nothing is left in flight, [uploading] is cleared and the
    form is enabled, with the values it had at submission, and nothing was
    committed.  The first submit uploaded the file to the path of its
    derived name, and a submit after the failure uploads the same file to
    the same path as long as the user id, which an auth-state callback may
    have replaced meanwhile, is not empty; it uploads nothing when the
    user id is empty. *)
Theorem retry_after_failure (evs0 evs : list event) (t : task)
    (fl : failure) :
  let w0 := fst (formRun appId initialAuthToken initial_world evs0) in
  let id := nextTask w0 in
  let mid := formRun appId initialAuthToken w0 (Submit :: evs) in
  let fin :=
    fst (formRun appId initialAuthToken w0
           (Submit :: evs ++ [failureEvent id fl])) in
  controlsDisabled (ui w0) = false ->
  missingInput (ui w0) = false ->
  tasks (fst mid) !! id = Some t ->
  awaited fl (t_phase t) = true ->
  tasks fin = ∅
  /\ uploading (ui fin) = false
  /\ controlsDisabled (ui fin) = false
  /\ form (ui fin) = form (ui w0)
  /\ committed fin = committed w0
  /\ exists f,
       packageFile (ui w0) = Some f
       /\ uploadsStarted (snd (formStep appId initialAuthToken w0 Submit))
          = [(storagePath appId
                (fileName_of (packageName (ui w0)) (packageVersion (ui w0))
                   (file_name f)), f)]
       /\ uploadsStarted (snd (formStep appId initialAuthToken fin Submit))
          = if JS.truthy_opt (userId (ui fin))
            then [(storagePath appId
                     (fileName_of (packageName (ui w0))
                        (packageVersion (ui w0)) (file_name f)), f)]
            else [].
Proof.
  intros w0 id mid fin D M L P.
  assert (C0 : consistent w0) by apply formRun_consistent, initial_consistent.
  assert (Cf : consistent fin) by (subst fin; now apply formRun_consistent).
  assert (Cm : consistent (fst mid)) by (subst mid; now apply formRun_consistent).
  destruct (missingInput_false _ M)
    as (f & uid & Hf & Hu & Tu & Tn & Td & Tv & A0).
  assert (Am : JS.present (auth (ui (fst mid))) = true)
    by (subst mid; now apply formRun_keeps_auth).
  destruct (submitted_inflight evs0 evs D M) as (f' & uid' & _ & _ & K).
  fold w0 mid id in K. destruct K as (A & _ & I).
  destruct (I t L) as (_ & IF & IC & _).
  assert (E : tasks (fst mid) = {[ id := t ]}).
  { destruct A as [E|((id' & t' & E) & _)].
    - rewrite E, lookup_empty in L. discriminate.
    - rewrite E in L. apply lookup_singleton_Some in L as (-> & ->).
      exact E. }
  assert (R : isAuthReady (ui (fst mid)) = true).
  { destruct Cm as (_ & _ & _ & Ht). now destruct (Ht _ _ L). }
  destruct (step_failure (fst mid) id t fl L P)
    as (s' & l & S & Fs & Us & Rs & As & Is).
  assert (Ef : fin = with_tasks ∅ (with_ui s' (fst mid))).
  { subst fin.
    change (Submit :: evs ++ [failureEvent id fl])
      with ((Submit :: evs) ++ [failureEvent id fl]).
    rewrite formRun_app. fold mid. destruct mid as [w2 l2].
    simpl in S, E. simpl formRun. unfold formStep.
    replace (fromForm (failureEvent id fl)) with false
      by now destruct fl.
    simpl andb. cbv iota. rewrite S. simpl.
    now rewrite E, delete_singleton_eq. }
  assert (Ff : form (ui fin) = form (ui w0)).
  { rewrite Ef. simpl. now rewrite Fs, IF. }
  assert (Df : controlsDisabled (ui fin) = false).
  { rewrite Ef. unfold controlsDisabled. simpl. now rewrite Us, Rs, R. }
  split_and!; try assumption.
  - now rewrite Ef.
  - rewrite Ef. exact Us.
  - rewrite Ef. exact IC.
  - exists f. split; [exact Hf|].
    unfold form in Ff. injection Ff as Fn Fd Fv Fp.
    split.
    + rewrite (formStep_resubmit w0 f C0 D A0 Hf Tn Td Tv).
      now rewrite Hu, (Tu : JS.truthy_opt (Some uid) = true).
    + rewrite <- Fn, <- Fv.
      apply formStep_resubmit; try assumption; try congruence.
      rewrite Ef. simpl. now rewrite As.
Qed.

(** X12.  After a publish succeeds the form is empty, so submitting again
    without filling it in stops at the guard: nothing is called, no upload
    starts, and only the message asking to fill all fields is set. *)
Theorem resubmit_after_success_rejected (evs0 : list event)
    (ps : list (N * N)) (downloadURL : string) :
  let w := fst (session appId initialAuthToken evs0) in
  let id := nextTask w in
  let w' :=
    fst (run appId initialAuthToken w
           (Submit :: progressEvents id ps
              ++ [UploadCompleted id; DownloadURLSettled id (inl downloadURL);
                  AddDocSettled id None])) in
  missingInput (ui w) = false ->
  step appId initialAuthToken w' Submit
  = (with_ui (setUploadMessage fillAllFields (ui w')) w', [Delivered Submit]).
Proof.
  intros w id w' M.
  destruct (publish_scenario evs0 ps downloadURL M)
    as (f & uid & _ & _ & F & _).
  fold w id w' in F.
  assert (Mi : missingInput (ui w') = true).
  { unfold form in F. injection F as Fn _ _ _.
    unfold missingInput. rewrite Fn. simpl. now rewrite !orb_true_r. }
  unfold step, handle, handleUpload. rewrite Mi.
  unfold catalogEffect, depsChanged. simpl. now rewrite !Bool.eqb_reflx.
Qed.

(** ** A name with nothing to keep (lines 107, 118-120) *)

Lemma strip_nothing (s : string) :
  forallb (fun c => negb (JS.conforming (JS.lower c))) (list_ascii_of_string s)
  = true ->
  sanitizedPackageName s = "".
Proof.
  unfold sanitizedPackageName.
  induction s as [|c s IH]; simpl; [reflexivity|].
  intros H. apply andb_true_iff in H as [Hc Hs].
  apply negb_true_iff in Hc. rewrite Hc. exact (IH Hs).
Qed.

(** X7.  The guard looks at the name as typed, not at the sanitized name:
    a name none of whose characters survives sanitizing (none is a letter
    of A-Z or a-z, a digit, an underscore, a dot or a dash) is accepted,
    and the file is uploaded under [_v], the version, a dot and the
    extension, whatever such name was typed. *)
Theorem unsanitizable_name (s : state) (f : File) :
  packageFile s = Some f ->
  missingInput s = false ->
  JS.present (storage s) = true ->
  forallb (fun c => negb (JS.conforming (JS.lower c)))
    (list_ascii_of_string (packageName s)) = true ->
  snd (fst (handleUpload appId s))
  = [UploadBytesResumable
       (storagePath appId
          ("_v" +:+ packageVersion s +:+ "." +:+ fileExtension (file_name f)))
       f].
Proof.
  intros Hf M St N.
  destruct (handleUpload_started s M St) as (f' & uid & Hf' & _ & H).
  rewrite Hf in Hf'. injection Hf' as <-. rewrite H. simpl.
  unfold fileName_of. now rewrite (strip_nothing _ N), append_nil.
Qed.

(** ** The records written (lines 107, 137-153) *)

Lemma truthy_toLowerCase (s : string) :
  JS.truthy (JS.toLowerCase s) = JS.truthy s.
Proof. now destruct s. Qed.

Lemma truthy_fileName (name version file_name : string) :
  JS.truthy (fileName_of name version file_name) = true.
Proof.
  unfold fileName_of. destruct (sanitizedPackageName name); reflexivity.
Qed.

Lemma traced_task_weaken (t : task) (log l : list entry) :
  (exists f,
     t_fileName t
     = fileName_of (t_packageName t) (t_packageVersion t) (file_name f)
     /\ In (Called (UploadBytesResumable (t_ref t) f)) log) ->
  exists f,
    t_fileName t
    = fileName_of (t_packageName t) (t_packageVersion t) (file_name f)
    /\ In (Called (UploadBytesResumable (t_ref t) f)) (log ++ l).
Proof.
  intros (f & E & I). exists f. split; [exact E|]. apply in_or_app. now left.
Qed.

(** What a callback does to the uploads in flight, and what it writes. *)
Lemma handle_effect (w w1 : world) (ev : event) (cs : list call) :
  handle appId initialAuthToken w ev = Some (w1, cs) ->
  (tasks w1 = tasks w /\ metadataWrites (List.map Called cs) = []
   /\ forall p r, ~ In (AddDoc p r) cs)
  \/ (exists f uid,
        ev = Submit /\ missingInput (ui w) = false
        /\ packageFile (ui w) = Some f /\ userId (ui w) = Some uid
        /\ tasks w1 = <[nextTask w := submitted appId (ui w) f uid]> (tasks w)
        /\ cs = [UploadBytesResumable
                   (t_ref (submitted appId (ui w) f uid)) f])
  \/ (exists id t,
        tasks w !! id = Some t /\ tasks w1 = delete id (tasks w)
        /\ metadataWrites (List.map Called cs) = []
        /\ forall p r, ~ In (AddDoc p r) cs)
  \/ (exists id t,
        ev = UploadCompleted id /\ tasks w !! id = Some t
        /\ t_phase t = Uploading
        /\ tasks w1 = <[id := in_phase ResolvingURL t]> (tasks w)
        /\ cs = [GetDownloadURL (t_ref t)])
  \/ (exists id t url,
        ev = DownloadURLSettled id (inl url) /\ tasks w !! id = Some t
        /\ t_phase t = ResolvingURL
        /\ tasks w1
           = <[id := in_phase (CommittingMetadata (recordOf t url)) t]>
               (tasks w)
        /\ cs = [AddDoc (packagesCollection appId) (recordOf t url)]).
Proof.
  intros H.
  destruct ev; handle_inv H; unfold task_in in *; simpl.
  all: try match goal with
       | L : handleUpload _ _ = (_, _, Some _) |- _ =>
           apply handleUpload_Some in L
             as (M & S & -> & f & uid & Hf & Hu' & -> & ->)
       | L : handleUpload _ _ = (_, _, None) |- _ =>
           apply handleUpload_None in L as (-> & [(M & ->)|(M & S & ->)])
       end.
  all: try (left; split_and!; [reflexivity | reflexivity |];
            intros p r B; simpl in B; intuition discriminate).
  all: try (right; right; left; eexists _, _;
            split_and!; [eassumption | reflexivity | reflexivity |];
            intros p r B; simpl in B; intuition discriminate).
  - left. split_and!; [reflexivity | |].
    + destruct n as [|[|[|n]]]; simpl; rewrite ?take_nil; reflexivity.
    + intros p r B. destruct n as [|[|[|n]]]; simpl in B;
        rewrite ?take_nil in B; simpl in B; intuition discriminate.
  - left. split_and!; [reflexivity | |].
    + unfold signInCall. destruct initialAuthToken as [tok|];
        [destruct (JS.truthy tok)|]; reflexivity.
    + intros p r B. unfold signInCall in B.
      destruct initialAuthToken as [tok|]; [destruct (JS.truthy tok)|];
        simpl in B; intuition discriminate.
  - right. left. exists f, uid. split_and!; try reflexivity; assumption.
  - right. right. right. left. eexists _, _.
    split_and!; first [eassumption | reflexivity].
  - right. right. right. right. eexists _, _, _.
    split_and!; first [eassumption | reflexivity].
Qed.

Lemma handle_traced (w w1 : world) (ev : event) (cs : list call)
    (log : list entry) :
  traced appId w log -> handle appId initialAuthToken w ev = Some (w1, cs) ->
  traced appId w1 (log ++ Delivered ev :: List.map Called cs).
Proof.
  intros (T & W) H. unfold traced.
  rewrite metadataWrites_app.
  change (metadataWrites (Delivered ev :: List.map Called cs))
    with (metadataWrites (List.map Called cs)).
  set (l := Delivered ev :: List.map Called cs).
  assert (Keep : forall id t,
             tasks w !! id = Some t ->
             JS.truthy (t_packageName t) = true
             /\ JS.truthy (t_packageDescription t) = true
             /\ JS.truthy (t_packageVersion t) = true
             /\ JS.truthy (t_userId t) = true
             /\ t_ref t = storagePath appId (t_fileName t)
             /\ (exists f,
                  t_fileName t
                  = fileName_of (t_packageName t) (t_packageVersion t)
                      (file_name f)
                  /\ In (Called (UploadBytesResumable (t_ref t) f)) (log ++ l))
             /\ (t_phase t <> Uploading ->
                 In (Delivered (UploadCompleted id)) (log ++ l)
                 /\ In (Called (GetDownloadURL (t_ref t))) (log ++ l))
             /\ (forall r, t_phase t = CommittingMetadata r ->
                 exists url, r = recordOf t url)).
  { intros id t L. destruct (T id t L) as (T1 & T2 & T3 & T4 & T5 & T6 & T7 & T8).
    split_and!; try assumption.
    - now apply traced_task_weaken.
    - intros P. destruct (T7 P). split; apply in_or_app; now left. }
  destruct (handle_effect _ _ _ _ H)
    as [(Et & Ew & _)
       |[(f & uid & -> & M & Hf & Hu & Et & ->)
        |[(id & t & L & Et & Ew & _)
         |[(id & t & -> & L & P & Et & ->)
          |(id & t & url & -> & L & P & Et & ->)]]]].
  - rewrite Et, Ew, app_nil_r. now split.
  - rewrite Et. simpl metadataWrites. rewrite app_nil_r.
    split; [|exact W]. intros id t L.
    apply lookup_insert_Some in L as [(<- & <-)|(_ & L)]; [|now apply Keep].
    destruct (missingInput_false _ M)
      as (f' & uid' & Hf' & Hu' & Tu & Tn & Td & Tv & _).
    rewrite Hu in Hu'. injection Hu' as <-.
    simpl. split_and!; try assumption; try reflexivity.
    + exists f. split; [reflexivity|]. apply in_or_app. right.
      right. now left.
    + intros B. now contradiction B.
    + discriminate.
  - rewrite Et, Ew, app_nil_r. split; [|exact W]. intros id' t' L'.
    apply lookup_delete_Some in L' as (_ & L'). now apply Keep.
  - rewrite Et. simpl metadataWrites. rewrite app_nil_r.
    split; [|exact W]. intros id' t' L'.
    apply lookup_insert_Some in L' as [(<- & <-)|(_ & L')];
      [|now apply Keep].
    destruct (Keep _ _ L) as (T1 & T2 & T3 & T4 & T5 & T6 & _ & _).
    simpl. split_and!; try assumption.
    + intros _. split; apply in_or_app; right; [now left | right; now left].
    + discriminate.
  - rewrite Et. simpl metadataWrites.
    destruct (Keep _ _ L) as (T1 & T2 & T3 & T4 & T5 & T6 & T7 & _).
    split.
    + intros id' t' L'.
      apply lookup_insert_Some in L' as [(<- & <-)|(_ & L')];
        [|now apply Keep].
      simpl. split_and!; try assumption.
      * intros _. apply T7. rewrite P. discriminate.
      * intros r E. injection E as <-. now exists url.
    + intros r Hr. apply elem_of_app in Hr as [Hr|Hr]; [now apply W|].
      apply list_elem_of_singleton in Hr as ->.
      destruct T6 as (f & Ef & _). unfold complete. simpl.
      rewrite truthy_toLowerCase, T1, T2, T3, T4, Ef, truthy_fileName.
      now split_and!.
Qed.

Lemma run_traced (w w' : world) (evs : list event) (log l : list entry) :
  traced appId w log -> run appId initialAuthToken w evs = (w', l) ->
  traced appId w' (log ++ l).
Proof.
  revert w log l. induction evs as [|ev evs IH]; intros w log l K R;
    simpl in R.
  - injection R as <- <-. now rewrite app_nil_r.
  - destruct (step appId initialAuthToken w ev) as [w1 l1] eqn:S.
    destruct (run appId initialAuthToken w1 evs) as [w2 l2] eqn:R2.
    injection R as <- <-. rewrite app_assoc.
    apply (IH w1 (log ++ l1) l2); [|exact R2].
    apply step_inv in S as [(_ & -> & ->)|(w0 & cs & cs' & H & E & ->)].
    + now rewrite app_nil_r.
    + pose proof (handle_traced _ _ _ _ _ K H) as (T & W).
      apply catalogEffect_frame in E as (-> & E).
      rewrite map_app.
      change (Delivered ev :: List.map Called cs ++ List.map Called cs')
        with ((Delivered ev :: List.map Called cs) ++ List.map Called cs').
      rewrite app_assoc. split.
      * intros id t L. destruct (T id t L)
          as (T1 & T2 & T3 & T4 & T5 & T6 & T7 & T8).
        split_and!; try assumption.
        -- now apply traced_task_weaken.
        -- intros P. destruct (T7 P). split; apply in_or_app; now left.
      * intros r Hr. apply W. rewrite metadataWrites_app in Hr.
        replace (metadataWrites (List.map Called cs')) with
          (@nil PackageRecord.t) in Hr
          by (destruct E as [->|[->|(_ & [->| ->])]]; reflexivity).
        now rewrite app_nil_r in Hr.
Qed.

Lemma session_traced (evs : list event) :
  traced appId (fst (session appId initialAuthToken evs))
    (snd (session appId initialAuthToken evs)).
Proof.
  unfold session.
  destruct (run appId initialAuthToken initial_world evs) as [w l] eqn:R.
  apply (run_traced initial_world w evs [] l); [|exact R].
  split.
  - intros id t L. simpl in L. rewrite lookup_empty in L. discriminate.
  - intros r Hr. inversion Hr.
Qed.

(** X4.  Every record the component writes, in any session, has a
    non-empty name, display name, description, version, file name and
    uploader id; its name is the lowercased display name and its upload
    time is the server-timestamp sentinel. *)
Theorem records_complete (evs : list event) (r : PackageRecord.t) :
  r ∈ metadataWrites (snd (session appId initialAuthToken evs)) ->
  complete r = true
  /\ PackageRecord.name r = JS.toLowerCase (PackageRecord.displayName r)
  /\ PackageRecord.uploadTime r = ServerTimestamp.
Proof.
  intros Hr. destruct (session_traced evs) as (_ & W).
  exact (W r Hr).
Qed.

(** X5.  A metadata record is only written by the completion callback of
    an upload, when its download URL arrives, and to the packages
    collection: at that moment the log already holds the start of an
    upload to the storage path of the record's file name, the completion
    of that upload and the request for its download URL, and the record's
    file name is the one derived from its display name, its version and
    the uploaded file. *)
Theorem addDoc_after_upload (evs : list event) (ev : event) (p : string)
    (r : PackageRecord.t) :
  let w := fst (session appId initialAuthToken evs) in
  let log := snd (session appId initialAuthToken evs) in
  In (Called (AddDoc p r)) (snd (step appId initialAuthToken w ev)) ->
  p = packagesCollection appId
  /\ (exists id,
        ev = DownloadURLSettled id (inl (PackageRecord.fileUrl r))
        /\ In (Delivered (UploadCompleted id)) log)
  /\ In (Called (GetDownloadURL
                   (storagePath appId (PackageRecord.fileName r)))) log
  /\ exists f,
       In (Called (UploadBytesResumable
                     (storagePath appId (PackageRecord.fileName r)) f)) log
       /\ PackageRecord.fileName r
          = fileName_of (PackageRecord.displayName r)
              (PackageRecord.version r) (file_name f).
Proof.
  intros w log B.
  destruct (session_traced evs) as (T & _). fold w log in T.
  destruct (step appId initialAuthToken w ev) as [w' l] eqn:S.
  apply step_inv in S as [(_ & _ & ->)|(w1 & cs & cs' & H & E & ->)];
    [inversion B|].
  simpl in B. destruct B as [B|B]; [discriminate|].
  apply in_map_iff in B as (c & Ec & B). injection Ec as ->.
  apply in_app_or in B as [B|B].
  - destruct (handle_effect _ _ _ _ H)
      as [(_ & _ & N)
         |[(f & uid & -> & _ & _ & _ & _ & ->)
          |[(id & t & _ & _ & _ & N)
           |[(id & t & -> & _ & _ & _ & ->)
            |(id & t & url & -> & L & P & _ & ->)]]]].
    + now apply N in B.
    + simpl in B. intuition discriminate.
    + now apply N in B.
    + simpl in B. intuition discriminate.
    + destruct B as [B|[]]. injection B as <- <-.
      destruct (T id t L) as (_ & _ & _ & _ & T5 & (f & Ef & If) & T7 & _).
      assert (Pn : t_phase t <> Uploading) by (rewrite P; discriminate).
      destruct (T7 Pn) as (Ic & Ig). simpl. rewrite <- T5.
      split_and!; try reflexivity; try assumption.
      * now exists id.
      * now exists f.
  - apply catalogEffect_frame in E as (_ & E).
    destruct E as [->|[->|(_ & [->| ->])]]; simpl in B;
      intuition discriminate.
Qed.

End Properties.

(** * Instances on the sample session *)


(** C1: a submit that reaches [handleUpload] while an upload is running is
    not rejected; a second upload starts next to the first. *)
Lemma handleUpload_reentrant :
  Sample.uploadingWorld
  = fst (formRun Sample.app None initial_world (Sample.filled ++ [Submit]))
  /\ tasks Sample.uploadingWorld !! 0 = Some Sample.uploadingTask
  /\ t_phase Sample.uploadingTask = Uploading
  /\ uploadsStarted (snd (step Sample.app None Sample.uploadingWorld Submit))
     = [("artifacts/default-app-id/packages/mycoolapp_v1.0.0.py", Sample.demo)]
  /\ uploadsStarted (snd (step Sample.app None Sample.uploadingWorld Submit))
     <> []
  /\ tasks (fst (step Sample.app None Sample.uploadingWorld Submit)) !! 1
     = Some Sample.uploadingTask.
Proof. split_and!; by_computation. Qed.

Lemma form_exclusive_witness :
  tasks (fst (formRun Sample.app None initial_world (Sample.filled ++ [Submit])))
    !! 0 = Some Sample.uploadingTask
  /\ fromForm Submit = true
  /\ formStep Sample.app None
       (fst (formRun Sample.app None initial_world (Sample.filled ++ [Submit])))
       Submit
     = (fst (formRun Sample.app None initial_world (Sample.filled ++ [Submit])),
        []).
Proof.
  assert (L : tasks (fst (formRun Sample.app None initial_world
                            (Sample.filled ++ [Submit])))
                !! 0 = Some Sample.uploadingTask) by by_computation.
  split_and!; [exact L | reflexivity |].
  exact (proj2 (proj2 (form_exclusive Sample.app None
                         (Sample.filled ++ [Submit]) 0 Sample.uploadingTask
                         Submit L eq_refl))).
Defined.

Lemma readiness_gating_witness :
  snd (session Sample.app None Sample.filled)
  = [Delivered (Mount None); Called InitializeApp; Called GetFirestore;
     Called GetAuth; Called GetStorage; Called OnAuthStateChanged;
     Called SignInAnonymously;
     Delivered (AuthStateChanged (Some "uid-1") "f3b0")]
    ++ Called (OnSnapshot "artifacts/default-app-id/public/data/packages")
    :: [Delivered (ChangeName "MyCoolApp");
        Delivered (ChangeDescription "A demo");
        Delivered (ChangeVersion "1.0.0");
        Delivered (FileChange (Some Sample.demo))]
  /\ storeOp (OnSnapshot "artifacts/default-app-id/public/data/packages") = true
  /\ exists user randomUUID,
       In (Delivered (AuthStateChanged user randomUUID))
          [Delivered (Mount None); Called InitializeApp; Called GetFirestore;
           Called GetAuth; Called GetStorage; Called OnAuthStateChanged;
           Called SignInAnonymously;
           Delivered (AuthStateChanged (Some "uid-1") "f3b0")].
Proof.
  assert (L : snd (session Sample.app None Sample.filled)
              = [Delivered (Mount None); Called InitializeApp;
                 Called GetFirestore; Called GetAuth; Called GetStorage;
                 Called OnAuthStateChanged; Called SignInAnonymously;
                 Delivered (AuthStateChanged (Some "uid-1") "f3b0")]
                ++ Called (OnSnapshot
                             "artifacts/default-app-id/public/data/packages")
                :: [Delivered (ChangeName "MyCoolApp");
                    Delivered (ChangeDescription "A demo");
                    Delivered (ChangeVersion "1.0.0");
                    Delivered (FileChange (Some Sample.demo))])
    by by_computation.
  split_and!; [exact L | reflexivity |].
  exact (readiness_gating Sample.app None Sample.filled _ _ _ L eq_refl).
Defined.

(** C3: a second auth-state callback replaces the user id that the first
    one, which set readiness, had carried, and a publish after it records
    the new one. *)
Lemma identity_overwritten :
  isAuthReady (ui (fst (session Sample.app None Sample.anonymousFirst))) = true
  /\ identities (snd (session Sample.app None Sample.anonymousFirst))
     = ["fallback-7c1e"]
  /\ List.map PackageRecord.uploaderId
       (metadataWrites (snd (session Sample.app None Sample.publishedLater)))
     = ["uid-1"]
  /\ userId (ui (fst (session Sample.app None Sample.anonymousFirst)))
     = Some "fallback-7c1e"
  /\ userId (ui (fst (session Sample.app None Sample.signedInLater)))
     = Some "uid-1"
  /\ userId (ui (fst (session Sample.app None Sample.signedInLater)))
     <> userId (ui (fst (session Sample.app None Sample.anonymousFirst))).
Proof. split_and!; by_computation. Qed.

Lemma identity_follows_auth_witness :
  identities (snd (session Sample.app None Sample.filled)) = ["uid-1"]
  /\ userId (ui (fst (session Sample.app None Sample.filled))) = Some "uid-1".
Proof.
  assert (I : identities (snd (session Sample.app None Sample.filled))
              = ["uid-1"]) by by_computation.
  split; [exact I|].
  destruct (identity_follows_auth Sample.app None Sample.filled)
    as (_ & _ & _ & H).
  exact (proj1 (H "uid-1" I)).
Defined.

Lemma rejected_iff_missing_witness :
  packageName (ui (fst (session Sample.app None [Mount None]))) = ""
  /\ handleUpload Sample.app (ui (fst (session Sample.app None [Mount None])))
     = (setUploadMessage fillAllFields
          (ui (fst (session Sample.app None [Mount None]))), [], None).
Proof.
  assert (E : packageName (ui (fst (session Sample.app None [Mount None])))
              = "") by by_computation.
  split; [exact E|].
  exact (proj2 (rejected_iff_missing Sample.app None [Mount None])
           (or_introl E)).
Defined.

Lemma fileName_deterministic_witness :
  packageFile (ui Sample.ready) = Some Sample.demo
  /\ missingInput (ui Sample.ready) = false
  /\ JS.present (storage (ui Sample.ready)) = true
  /\ exists t,
       handleUpload Sample.app (ui Sample.ready)
       = (started (ui Sample.ready),
          [UploadBytesResumable
             "artifacts/default-app-id/packages/mycoolapp_v1.0.0.py"
             Sample.demo],
          Some t)
       /\ t_fileName t = "mycoolapp_v1.0.0.py".
Proof.
  assert (F : packageFile (ui Sample.ready) = Some Sample.demo)
    by by_computation.
  assert (M : missingInput (ui Sample.ready) = false) by by_computation.
  assert (S : JS.present (storage (ui Sample.ready)) = true)
    by by_computation.
  split_and!; [exact F | exact M | exact S |].
  pose proof (proj1 (fileName_deterministic Sample.app (ui Sample.ready)
                       Sample.demo F M S)) as H.
  vm_compute in H. vm_compute. exact H.
Defined.

(** C6: two names that differ only in case, and a name that ends in what
    could be a version, give the same file name as another (name, version)
    pair. *)
Lemma fileName_collision :
  fileExtension "tool.py" = fileExtension "tool.py"
  /\ ("App", "1") <> ("app", "1")
  /\ fileName_of "App" "1" "tool.py" = fileName_of "app" "1" "tool.py"
  /\ ("a_v1", "2") <> ("a", "1_v2")
  /\ fileName_of "a_v1" "2" "tool.py" = fileName_of "a" "1_v2" "tool.py".
Proof. split_and!; by_computation. Qed.

Lemma fileName_separates_witness :
  fileExtension "a.py" = fileExtension "b.py"
  /\ "1.0" = "1.0"
  /\ (fileName_of "Foo" "1.0" "a.py" = fileName_of "Bar" "1.0" "b.py"
      <-> sanitizedPackageName "Foo" = sanitizedPackageName "Bar"
          /\ "1.0" = "1.0").
Proof.
  assert (E : fileExtension "a.py" = fileExtension "b.py") by by_computation.
  split_and!; [exact E | reflexivity |].
  exact (fileName_separates "Foo" "1.0" "a.py" "Bar" "1.0" "b.py" E
           (or_introl eq_refl)).
Defined.

Lemma metadata_failure_keeps_form_witness :
  tasks Sample.committingWorld !! 0 = Some Sample.committingTask
  /\ t_phase Sample.committingTask = CommittingMetadata Sample.committingRecord
  /\ form (ui (fst (step Sample.app None Sample.committingWorld
                      (AddDocSettled 0 (Some "unavailable")))))
     = form (ui Sample.committingWorld)
  /\ uploadMessage (ui (fst (step Sample.app None Sample.committingWorld
                               (AddDocSettled 0 (Some "unavailable")))))
     = "Failed to save package info: " +:+ "unavailable".
Proof.
  assert (L : tasks Sample.committingWorld !! 0 = Some Sample.committingTask)
    by by_computation.
  assert (P : t_phase Sample.committingTask
              = CommittingMetadata Sample.committingRecord)
    by by_computation.
  split_and!; [exact L | exact P | |];
    destruct (metadata_failure_keeps_form Sample.app None
                Sample.committingWorld 0 Sample.committingTask
                Sample.committingRecord "unavailable" L P)
      as (_ & _ & _ & F & U & _); assumption.
Defined.

Lemma upload_failure_keeps_form_witness :
  controlsDisabled
    (ui (fst (formRun Sample.app None initial_world Sample.filled))) = false
  /\ missingInput
       (ui (fst (formRun Sample.app None initial_world Sample.filled))) = false
  /\ tasks (fst (formRun Sample.app None
                   (fst (formRun Sample.app None initial_world Sample.filled))
                   (Submit :: Sample.whileUploading)))
       !! nextTask (fst (formRun Sample.app None initial_world Sample.filled))
     = Some Sample.uploadingTask
  /\ t_phase Sample.uploadingTask = Uploading
  /\ form (ui (fst (formRun Sample.app None
                      (fst (formRun Sample.app None initial_world Sample.filled))
                      (Submit :: Sample.whileUploading
                         ++ [UploadFailed
                               (nextTask
                                  (fst (formRun Sample.app None initial_world
                                          Sample.filled)))
                               "network"]))))
     = form (ui (fst (formRun Sample.app None initial_world Sample.filled))).
Proof.
  assert (D : controlsDisabled
                (ui (fst (formRun Sample.app None initial_world Sample.filled)))
              = false) by by_computation.
  assert (M : missingInput
                (ui (fst (formRun Sample.app None initial_world Sample.filled)))
              = false) by by_computation.
  assert (L : tasks (fst (formRun Sample.app None
                            (fst (formRun Sample.app None initial_world
                                    Sample.filled))
                            (Submit :: Sample.whileUploading)))
                !! nextTask (fst (formRun Sample.app None initial_world
                                    Sample.filled))
              = Some Sample.uploadingTask) by by_computation.
  assert (P : t_phase Sample.uploadingTask = Uploading) by by_computation.
  split_and!; [exact D | exact M | exact L | exact P |].
  exact (proj1 (upload_failure_keeps_form Sample.app None Sample.filled
                  Sample.whileUploading Sample.uploadingTask "network"
                  D M L P)).
Defined.

Lemma publish_success_witness :
  controlsDisabled
    (ui (fst (formRun Sample.app None initial_world Sample.filled))) = false
  /\ missingInput
       (ui (fst (formRun Sample.app None initial_world Sample.filled))) = false
  /\ tasks (fst (formRun Sample.app None
                   (fst (formRun Sample.app None initial_world Sample.filled))
                   (Submit :: Sample.untilCommit)))
       !! nextTask (fst (formRun Sample.app None initial_world Sample.filled))
     = Some Sample.committingTask
  /\ t_phase Sample.committingTask = CommittingMetadata Sample.committingRecord
  /\ metadataWrites
       (snd (formRun Sample.app None
               (fst (formRun Sample.app None initial_world Sample.filled))
               (Submit :: Sample.untilCommit
                  ++ [AddDocSettled
                        (nextTask
                           (fst (formRun Sample.app None initial_world
                                   Sample.filled)))
                        None])))
     = [Sample.committingRecord].
Proof.
  assert (D : controlsDisabled
                (ui (fst (formRun Sample.app None initial_world Sample.filled)))
              = false) by by_computation.
  assert (M : missingInput
                (ui (fst (formRun Sample.app None initial_world Sample.filled)))
              = false) by by_computation.
  assert (L : tasks (fst (formRun Sample.app None
                            (fst (formRun Sample.app None initial_world
                                    Sample.filled))
                            (Submit :: Sample.untilCommit)))
                !! nextTask (fst (formRun Sample.app None initial_world
                                    Sample.filled))
              = Some Sample.committingTask) by by_computation.
  assert (P : t_phase Sample.committingTask
              = CommittingMetadata Sample.committingRecord)
    by by_computation.
  split_and!; [exact D | exact M | exact L | exact P |].
  destruct (publish_success Sample.app None Sample.filled Sample.untilCommit
              Sample.committingTask Sample.committingRecord D M L P)
    as (f & uid & url & _ & _ & _ & _ & _ & _ & _ & W & _).
  exact W.
Defined.

(** C9: an auth-state callback that arrives while the upload runs changes
    the user id, and the record written afterwards still carries the one
    the submit saw: its [uploaderId] is not the identity current when
    [addDoc] is called, nor the one current when it resolves. *)
Lemma uploaderId_not_current :
  userId (ui (fst (formRun Sample.app None initial_world
                     Sample.signedInMeanwhile))) = Some "uid-1"
  /\ userId (ui (fst (formRun Sample.app None initial_world
                        Sample.publishedMeanwhile))) = Some "uid-1"
  /\ List.map PackageRecord.uploaderId
       (metadataWrites (snd (formRun Sample.app None initial_world
                               Sample.publishedMeanwhile)))
     = ["fallback-7c1e"]
  /\ List.map PackageRecord.uploaderId
       (committed (fst (formRun Sample.app None initial_world
                          Sample.publishedMeanwhile)))
     = ["fallback-7c1e"]
  /\ List.map (fun r => Some (PackageRecord.uploaderId r))
       (committed (fst (formRun Sample.app None initial_world
                          Sample.publishedMeanwhile)))
     <> [userId (ui (fst (formRun Sample.app None initial_world
                            Sample.publishedMeanwhile)))].
Proof. split_and!; by_computation. Qed.

Lemma extension_without_dot_witness :
  packageFile Sample.noDotState = Some Sample.noDot
  /\ hasDot (file_name Sample.noDot) = false
  /\ missingInput Sample.noDotState = false
  /\ JS.present (storage Sample.noDotState) = true
  /\ fileExtension (file_name Sample.noDot) = file_name Sample.noDot.
Proof.
  assert (F : packageFile Sample.noDotState = Some Sample.noDot)
    by by_computation.
  assert (D : hasDot (file_name Sample.noDot) = false) by by_computation.
  assert (M : missingInput Sample.noDotState = false) by by_computation.
  assert (S : JS.present (storage Sample.noDotState) = true)
    by by_computation.
  split_and!; [exact F | exact D | exact M | exact S |].
  exact (proj1 (extension_without_dot Sample.app Sample.noDotState
                  Sample.noDot F D M S)).
Defined.

(** * Instances of the further properties *)

Lemma records_complete_witness :
  Sample.committingRecord
    ∈ metadataWrites (snd (session Sample.app None Cases.written))
  /\ complete Sample.committingRecord = true.
Proof.
  assert (E : metadataWrites (snd (session Sample.app None Cases.written))
              = [Sample.committingRecord]) by by_computation.
  assert (I : Sample.committingRecord
                ∈ metadataWrites (snd (session Sample.app None Cases.written))).
  { rewrite E. apply list_elem_of_singleton. reflexivity. }
  split; [exact I|].
  exact (proj1 (records_complete Sample.app None Cases.written
                  Sample.committingRecord I)).
Defined.

Lemma addDoc_after_upload_witness :
  In (Called (AddDoc "artifacts/default-app-id/public/data/packages"
                Sample.committingRecord))
     (snd (step Sample.app None
             (fst (session Sample.app None Cases.beforeCommit))
             Cases.urlArrives))
  /\ In (Called (GetDownloadURL
                   (storagePath Sample.app
                      (PackageRecord.fileName Sample.committingRecord))))
        (snd (session Sample.app None Cases.beforeCommit)).
Proof.
  assert (E : snd (step Sample.app None
                     (fst (session Sample.app None Cases.beforeCommit))
                     Cases.urlArrives)
              = [Delivered Cases.urlArrives;
                 Called (AddDoc "artifacts/default-app-id/public/data/packages"
                           Sample.committingRecord)]) by by_computation.
  assert (I : In (Called (AddDoc "artifacts/default-app-id/public/data/packages"
                            Sample.committingRecord))
                 (snd (step Sample.app None
                         (fst (session Sample.app None Cases.beforeCommit))
                         Cases.urlArrives))).
  { rewrite E. right. left. reflexivity. }
  split; [exact I|].
  exact (proj1 (proj2 (proj2 (addDoc_after_upload Sample.app None
                                Cases.beforeCommit Cases.urlArrives _ _ I)))).
Defined.

Lemma unsanitizable_name_witness :
  packageFile Cases.bangs = Some Sample.demo
  /\ missingInput Cases.bangs = false
  /\ JS.present (storage Cases.bangs) = true
  /\ forallb (fun c => negb (JS.conforming (JS.lower c)))
       (list_ascii_of_string (packageName Cases.bangs)) = true
  /\ snd (fst (handleUpload Sample.app Cases.bangs))
     = [UploadBytesResumable
          (storagePath Sample.app
             ("_v" +:+ packageVersion Cases.bangs +:+ "."
                +:+ fileExtension (file_name Sample.demo)))
          Sample.demo].
Proof.
  assert (F : packageFile Cases.bangs = Some Sample.demo) by by_computation.
  assert (M : missingInput Cases.bangs = false) by by_computation.
  assert (S : JS.present (storage Cases.bangs) = true) by by_computation.
  assert (N : forallb (fun c => negb (JS.conforming (JS.lower c)))
                (list_ascii_of_string (packageName Cases.bangs)) = true)
    by by_computation.
  split_and!; [exact F | exact M | exact S | exact N |].
  exact (unsanitizable_name Sample.app Cases.bangs Sample.demo F M S N).
Defined.

Lemma fileExtension_last_segment_witness :
  hasDot "gz" = false
  /\ fileExtension ("archive.tar" +:+ "." +:+ "gz") = "gz".
Proof.
  assert (D : hasDot "gz" = false) by by_computation.
  split; [exact D|].
  exact (proj1 (fileExtension_last_segment "demo." "archive.tar" "gz" D)).
Defined.

Lemma retry_after_failure_witness :
  controlsDisabled
    (ui (fst (formRun Sample.app None initial_world Sample.filled))) = false
  /\ missingInput
       (ui (fst (formRun Sample.app None initial_world Sample.filled))) = false
  /\ tasks (fst (formRun Sample.app None
                   (fst (formRun Sample.app None initial_world Sample.filled))
                   (Submit :: Sample.untilCommit)))
       !! nextTask (fst (formRun Sample.app None initial_world Sample.filled))
     = Some Sample.committingTask
  /\ awaited (CommitError "unavailable") (t_phase Sample.committingTask) = true
  /\ tasks (fst (formRun Sample.app None
                   (fst (formRun Sample.app None initial_world Sample.filled))
                   (Submit :: Sample.untilCommit
                      ++ [failureEvent
                            (nextTask
                               (fst (formRun Sample.app None initial_world
                                       Sample.filled)))
                            (CommitError "unavailable")])))
     = ∅.
Proof.
  assert (D : controlsDisabled
                (ui (fst (formRun Sample.app None initial_world Sample.filled)))
              = false) by by_computation.
  assert (M : missingInput
                (ui (fst (formRun Sample.app None initial_world Sample.filled)))
              = false) by by_computation.
  assert (L : tasks (fst (formRun Sample.app None
                            (fst (formRun Sample.app None initial_world
                                    Sample.filled))
                            (Submit :: Sample.untilCommit)))
                !! nextTask (fst (formRun Sample.app None initial_world
                                    Sample.filled))
              = Some Sample.committingTask) by by_computation.
  assert (P : awaited (CommitError "unavailable")
                (t_phase Sample.committingTask) = true) by by_computation.
  split_and!; [exact D | exact M | exact L | exact P |].
  exact (proj1 (retry_after_failure Sample.app None Sample.filled
                  Sample.untilCommit Sample.committingTask
                  (CommitError "unavailable") D M L P)).
Defined.

Lemma resubmit_after_success_rejected_witness :
  missingInput (ui (fst (session Sample.app None Sample.filled))) = false
  /\ snd (step Sample.app None
            (fst (run Sample.app None
                    (fst (session Sample.app None Sample.filled))
                    (Submit
                     :: progressEvents
                          (nextTask
                             (fst (session Sample.app None Sample.filled)))
                          [(2048, 2048)%N]
                     ++ [UploadCompleted
                           (nextTask
                              (fst (session Sample.app None Sample.filled)));
                         DownloadURLSettled
                           (nextTask
                              (fst (session Sample.app None Sample.filled)))
                           (inl "https://files.example/demo");
                         AddDocSettled
                           (nextTask
                              (fst (session Sample.app None Sample.filled)))
                           None])))
            Submit)
     = [Delivered Submit].
Proof.
  assert (M : missingInput (ui (fst (session Sample.app None Sample.filled)))
              = false) by by_computation.
  split; [exact M|].
  exact (f_equal snd
           (resubmit_after_success_rejected Sample.app None Sample.filled
              [(2048, 2048)%N] "https://files.example/demo" M)).
Defined.

Lemma progress_endpoints_witness :
  tasks Sample.uploadingWorld !! 0 = Some Sample.uploadingTask
  /\ t_phase Sample.uploadingTask = Uploading
  /\ (0 < 2048 < 2 ^ 53)%N
  /\ progressShown Sample.app None Sample.uploadingWorld 0 2048 2048
     = (JS.ofN 100, "Upload is 100% done").
Proof.
  assert (L : tasks Sample.uploadingWorld !! 0 = Some Sample.uploadingTask)
    by by_computation.
  assert (P : t_phase Sample.uploadingTask = Uploading) by by_computation.
  assert (B : (0 < 2048 < 2 ^ 53)%N) by (split; reflexivity).
  split; [exact L|]. split; [exact P|]. split; [exact B|].
  destruct (progress_endpoints Sample.app None Sample.uploadingWorld 0
              Sample.uploadingTask 2048 L P) as (H & _).
  exact (proj2 (H B)).
Defined.

Lemma form_frame_witness :
  (UploadFailed 0 "network" = Submit
   \/ fromForm (UploadFailed 0 "network") = false)
  /\ (forall id, UploadFailed 0 "network" <> AddDocSettled id None)
  /\ form (ui (fst (step Sample.app None Sample.uploadingWorld
                      (UploadFailed 0 "network"))))
     = form (ui Sample.uploadingWorld).
Proof.
  assert (F : UploadFailed 0 "network" = Submit
              \/ fromForm (UploadFailed 0 "network") = false)
    by (right; reflexivity).
  assert (N : forall id, UploadFailed 0 "network" <> AddDocSettled id None)
    by (intros id; discriminate).
  split_and!; [exact F | exact N |].
  exact (form_frame Sample.app None Sample.uploadingWorld
           (UploadFailed 0 "network") F N).
Defined.
